(** * ny-scratch: the data-loading lifecycle of the three [App] components

    The repository holds three revisions of one React component:

    - [src/frontend/src/App.js]: best_any + best_grand + history   (module [History])
    - [src/unnamed/part_000]:    best_any + recommendation         (module [Recommendation])
    - [src/unnamed/part_001]:    best_any + best_grand             (module [Grand])

    Each one runs [fetchData] once when it mounts and renders from five (or
    four) [useState] slots.  The embedding below keeps the shape of the code:
    [fetchData] is written in a small monad for [async] functions (a clock,
    a log of effects, exceptions), promises carry the instant at which they
    settle, and [App] is the render function over the state record. *)

From Stdlib Require Import ZArith NArith String Ascii List Bool Arith Lia.
From Stdlib Require Import SpecFloat DecimalString.
From Stdlib Require DecimalN DecimalPos.
Import ListNotations.

Set Warnings "-register-all".
Local Open Scope list_scope.
Local Open Scope string_scope.

(* ================================================================== *)
(** ** JavaScript values as [JSON.parse] produces them *)
(* ================================================================== *)

Module JS.

(** The Number type is IEEE-754 binary64. *)
Definition number := spec_float.
Definition prec : Z := 53.
Definition emax : Z := 1024.
Definition NaN : number := S754_nan.
Definition of_Z (z : Z) : number := binary_normalize prec emax z 0 false.
Definition mul (x y : number) : number := SFmul prec emax x y.
Definition sub (x y : number) : number := SFsub prec emax x y.
Definition div (x y : number) : number := SFdiv prec emax x y.
Definition ltb (x y : number) : bool := SFltb x y.

(** A parsed JSON text.  The members of an object are kept in source order;
    [JSON.parse] lets a later duplicate key overwrite an earlier one. *)
Inductive json : Type :=
| JNull
| JBool (b : bool)
| JNum (x : number)
| JStr (s : string)
| JArr (items : list json)
| JObj (props : list (string * json)).

(** A value that may also be [undefined] ([None]). *)
Definition jsval := option json.
Definition undefined : jsval := None.

(** The own data property [k] of a parsed object. *)
Fixpoint own {A : Type} (props : list (string * A)) (k : string) : option A :=
  match props with
  | [] => None
  | (k', v) :: rest =>
      match own rest k with
      | Some w => Some w
      | None => if String.eqb k' k then Some v else None
      end
  end.

Definition has_own {A : Type} (props : list (string * A)) (k : string) : bool :=
  match own props k with Some _ => true | None => false end.

(** What the host's number grammar and number printer do is not part of the
    repository: the two conversions are taken from the engine. *)
Record Engine := {
  StringToNumber : string -> number;
  NumberToString : number -> string
}.

(** [None] stands for a thrown TypeError in all the partial operations below. *)

Fixpoint sequence {A : Type} (l : list (option A)) : option (list A) :=
  match l with
  | [] => Some []
  | None :: _ => None
  | Some a :: rest => option_map (cons a) (sequence rest)
  end.

(** ToString.  A parsed object has no callable own property, so an own
    ["toString"] leaves OrdinaryToPrimitive without a method to call; an
    array goes through [Array.prototype.join], which prints [null] as the
    empty string. *)
Fixpoint ToString (js : Engine) (v : json) : option string :=
  match v with
  | JNull => Some "null"
  | JBool true => Some "true"
  | JBool false => Some "false"
  | JNum x => Some (NumberToString js x)
  | JStr s => Some s
  | JArr items =>
      option_map (String.concat ",")
        (sequence (map (fun e => match e with
                                 | JNull => Some ""
                                 | _ => ToString js e
                                 end) items))
  | JObj props => if has_own props "toString" then None else Some "[object Object]"
  end.

(** ToNumber. *)
Definition ToNumber (js : Engine) (v : jsval) : option number :=
  match v with
  | None => Some NaN
  | Some JNull => Some (of_Z 0)
  | Some (JBool true) => Some (of_Z 1)
  | Some (JBool false) => Some (of_Z 0)
  | Some (JNum x) => Some x
  | Some (JStr s) => Some (StringToNumber js s)
  | Some (JArr items) => option_map (StringToNumber js) (ToString js (JArr items))
  | Some (JObj props) => option_map (StringToNumber js) (ToString js (JObj props))
  end.

(** ToBoolean, as [&&] and [if] apply it. *)
Definition truthy (v : jsval) : bool :=
  match v with
  | None | Some JNull => false
  | Some (JBool b) => b
  | Some (JNum (S754_zero _)) | Some (JNum S754_nan) => false
  | Some (JNum _) => true
  | Some (JStr s) => negb (String.eqb s "")
  | Some (JArr _) | Some (JObj _) => true
  end.

(** The data fields the components read.  None of these names is inherited
    from a prototype, is an array index or is [length]. *)
Module Field.
Inductive t :=
| name | timestamp | prize_amount | remaining_prizes | total_prizes
| expected_value | grand_prizes_remaining | remaining_ratio.

Definition key (f : t) : string :=
  match f with
  | name => "name"
  | timestamp => "timestamp"
  | prize_amount => "prize_amount"
  | remaining_prizes => "remaining_prizes"
  | total_prizes => "total_prizes"
  | expected_value => "expected_value"
  | grand_prizes_remaining => "grand_prizes_remaining"
  | remaining_ratio => "remaining_ratio"
  end.
End Field.

(** [v.f]: a TypeError on [undefined] and [null], the own member of an
    object, [undefined] on anything else. *)
Definition field (v : jsval) (f : Field.t) : option jsval :=
  match v with
  | None | Some JNull => None
  | Some (JObj props) => Some (own props (Field.key f))
  | Some _ => Some undefined
  end.

(** [v.length > 0].  Arrays and strings have their element count as
    [length]; booleans and numbers have none ([undefined > 0] is false); an
    object has whatever its own ["length"] member is, converted by [>]. *)
Definition length_gt_0 (js : Engine) (v : json) : option bool :=
  match v with
  | JNull => None
  | JArr items => Some (negb (Nat.eqb (List.length items) 0))
  | JStr s => Some (negb (Nat.eqb (String.length s) 0))
  | JBool _ | JNum _ => Some false
  | JObj props =>
      match own props "length" with
      | None => Some false
      | Some l => option_map (ltb (of_Z 0)) (ToNumber js (Some l))
      end
  end.

(** [v[v.length - 1]]. *)
Definition last_item (js : Engine) (v : json) : option jsval :=
  match v with
  | JNull => None
  | JArr items => Some (List.last (map Some items) undefined)
  | JStr s =>
      Some (match String.length s with
            | O => undefined
            | S n => Some (JStr (String.substring n 1 s))
            end)
  | JBool _ | JNum _ => Some undefined
  | JObj props =>
      option_map
        (fun n => own props (NumberToString js (sub n (of_Z 1))))
        (ToNumber js (own props "length"))
  end.

(** A Date object, kept as the argument it was constructed from. *)
Inductive Date := NewDate (arg : jsval).

(** [new Date(v)]: the constructor first takes ToPrimitive of its argument. *)
Definition new_Date (js : Engine) (v : jsval) : option Date :=
  match v with
  | Some (JArr items) => option_map (fun _ => NewDate v) (ToString js (JArr items))
  | Some (JObj props) => option_map (fun _ => NewDate v) (ToString js (JObj props))
  | _ => Some (NewDate v)
  end.

(** [v.toLocaleString()] throws exactly when [locale_throws v]: on
    [undefined] and [null], on an object whose own ["toLocaleString"] or
    ["toString"] shadows the inherited method, and on an array with such an
    element.  The text it returns depends on the host's locale and is kept
    symbolic ([LocaleString v]). *)
Fixpoint locale_throws (v : json) : bool :=
  match v with
  | JNull => true
  | JObj props => has_own props "toLocaleString" || has_own props "toString"
  | JArr items =>
      existsb (fun e => match e with
                        | JNull => false
                        | _ => locale_throws e
                        end) items
  | _ => false
  end.

Inductive text :=
| LocaleString (v : json)          (* v.toLocaleString() *)
| LocaleNumber (x : number).       (* Number(v).toLocaleString() *)

Definition toLocaleString (v : jsval) : option text :=
  match v with
  | None => None
  | Some j => if locale_throws j then None else Some (LocaleString j)
  end.

(** Evaluation goes on with [k] unless [o] threw. *)
Definition bind_opt {A B : Type} (o : option A) (k : A -> option B) : option B :=
  match o with
  | Some a => k a
  | None => None
  end.

(** [xs.map(f)]: only an array has a [map] to call. *)
Definition array_map {B : Type} (f : json -> option B) (xs : json) : option (list B) :=
  match xs with
  | JArr items => sequence (map f items)
  | _ => None
  end.

(** [Number.prototype.toFixed(2)].  A finite [x] below 10^21 is printed as
    the integer [n] closest to [100 * x] (the larger one on a tie), with a
    point before its last two digits. *)
Definition decimal (n : N) : string := NilZero.string_of_uint (N.to_uint n).

Fixpoint zeros (k : nat) : string :=
  match k with
  | O => ""
  | S k' => "0" ++ zeros k'
  end.

Definition point2 (n : N) : string :=
  let m := decimal n in
  let m := if Nat.leb (String.length m) 2 then zeros (3 - String.length m) ++ m else m in
  let k := String.length m in
  String.substring 0 (k - 2) m ++ "." ++ String.substring (k - 2) 2 m.

Definition hundredths (m : positive) (e : Z) : N :=
  let scaled := (100 * Z.pos m)%Z in
  Z.to_N (if (0 <=? e)%Z then scaled * 2 ^ e
          else (2 * scaled + 2 ^ (- e)) / 2 ^ (- e + 1))%Z.

Definition at_least_1e21 (m : positive) (e : Z) : bool :=
  if (0 <=? e)%Z then (10 ^ 21 <=? Z.pos m * 2 ^ e)%Z
  else (10 ^ 21 * 2 ^ (- e) <=? Z.pos m)%Z.

Definition toFixed2 (js : Engine) (x : number) : string :=
  match x with
  | S754_nan | S754_infinity _ => NumberToString js x
  | S754_zero _ => "0.00"
  | S754_finite s m e =>
      (if s then "-" else "") ++
      (if at_least_1e21 m e then NumberToString js (S754_finite false m e)
       else point2 (hundredths m e))
  end.

End JS.

(* ================================================================== *)
(** ** Promises and [async] functions on a clock *)
(* ================================================================== *)

Module Async.

(** What a [catch] clause can receive. *)
Inductive exn :=
| FetchRejected (reason : string)   (* fetch() rejected: a network fault *)
| Error (message : string)          (* throw new Error(message) *)
| JsonRejected (reason : string)    (* response.json() rejected: body lost or not JSON *)
| TypeError.                        (* a property read on null, a call of a non-function, ... *)

(** What the outside world answers to a request: the answer arrives
    [latency] ticks after the request is made. *)
Record Reply (A : Type) := mkReply { latency : nat; answer : exn + A }.
Arguments mkReply {A}.
Arguments latency {A}.
Arguments answer {A}.

(** A promise, known by the instant at which it settles and by how. *)
Record Promise (A : Type) := mkPromise { settled_at : nat; result : exn + A }.
Arguments mkPromise {A}.
Arguments settled_at {A}.
Arguments result {A}.

(** [Promise.all([p, q])]: fulfilled with both values once the later of the
    two is fulfilled; rejected as soon as one of them is, with the reason of
    the earlier rejection (of [p] when both reject in the same tick). *)
Definition Promise_all2 {A B : Type} (p : Promise A) (q : Promise B) : Promise (A * B) :=
  match result p, result q with
  | inr a, inr b => mkPromise (Nat.max (settled_at p) (settled_at q)) (inr (a, b))
  | inl e, inr _ => mkPromise (settled_at p) (inl e)
  | inr _, inl e => mkPromise (settled_at q) (inl e)
  | inl e, inl e' =>
      if Nat.ltb (settled_at q) (settled_at p) then mkPromise (settled_at q) (inl e')
      else mkPromise (settled_at p) (inl e)
  end.

(** [Promise.all([p, q, r])]. *)
Definition Promise_all3 {A B C : Type}
    (p : Promise A) (q : Promise B) (r : Promise C) : Promise (A * (B * C)) :=
  Promise_all2 p (Promise_all2 q r).

(** What is observable of a component's effect: requests, console output and
    calls of the state setters ([S] is the component's setter type). *)
Inductive Effect (S : Type) :=
| Fetch (url : string)
| ConsoleError (label : string) (err : exn)
| SetState (call : S).
Arguments Fetch {S}.
Arguments ConsoleError {S}.
Arguments SetState {S}.

(** A run of an async function from a given instant: what it returned or
    threw, when it got there, and the effects on the way with their instants. *)
Record Run (S A : Type) := mkRun {
  outcome : exn + A;
  clock : nat;
  effects : list (nat * Effect S)
}.
Arguments mkRun {S A}.
Arguments outcome {S A}.
Arguments clock {S A}.
Arguments effects {S A}.

Definition M (S A : Type) := nat -> Run S A.

Definition ret {S A : Type} (a : A) : M S A := fun now => mkRun (inr a) now [].

Definition throw {S A : Type} (e : exn) : M S A := fun now => mkRun (inl e) now [].

(** The effects [es] happened before the run [r]. *)
Definition preceded_by {S A : Type} (es : list (nat * Effect S)) (r : Run S A) : Run S A :=
  let '(mkRun o c es') := r in mkRun o c (es ++ es')%list.

Definition bind {S A B : Type} (m : M S A) (k : A -> M S B) : M S B :=
  fun now =>
    match m now with
    | mkRun (inl e) c es => mkRun (inl e) c es
    | mkRun (inr a) c es => preceded_by es (k a c)
    end.

Definition emit {S : Type} (e : Effect S) : M S unit :=
  fun now => mkRun (inr tt) now [(now, e)].

(** [await p]: the function resumes when [p] has settled, with its value or
    with its rejection thrown. *)
Definition await {S A : Type} (p : Promise A) : M S A :=
  fun now => mkRun (result p) (Nat.max now (settled_at p)) [].

(** A partial operation of the language: [None] is a thrown TypeError. *)
Definition lift {S A : Type} (o : option A) : M S A :=
  match o with
  | Some a => ret a
  | None => throw TypeError
  end.

(** [try { body } catch (err) { handler err } finally { finalizer }]. *)
Definition try_catch_finally {S A : Type}
    (body : M S A) (handler : exn -> M S A) (finalizer : M S unit) : M S A :=
  fun now =>
    let '(mkRun o c es) :=
      match body now with
      | mkRun (inr a) c es => mkRun (inr a) c es
      | mkRun (inl e) c es => preceded_by es (handler e c)
      end in
    match finalizer c with
    | mkRun (inl e) c' es' => mkRun (inl e) c' (es ++ es')%list
    | mkRun (inr _) c' es' => mkRun o c' (es ++ es')%list
    end.

(** An HTTP response: [ok] is true for the statuses 200..299; [body] is what
    [json()] will give, counted from the call of [json()]. *)
Record Response := mkResponse { status : nat; body : Reply JS.json }.

Definition ok (r : Response) : bool :=
  Nat.leb 200 (status r) && Nat.leb (status r) 299.

(** The promise of an answer asked for at the instant [now]. *)
Definition sent {A : Type} (r : Reply A) (now : nat) : Promise A :=
  mkPromise (now + latency r) (answer r).

(** [fetch(url)]: the request leaves now, the promise settles [latency]
    ticks later. *)
Definition fetch {S : Type} (url : string) (net : Reply Response) : M S (Promise Response) :=
  fun now => mkRun (inr (sent net now)) now [(now, Fetch url)].

(** [res.json()]. *)
Definition Response_json {S : Type} (res : Response) : M S (Promise JS.json) :=
  fun now => mkRun (inr (sent (body res) now)) now [].

Definition console_error {S : Type} (label : string) (err : exn) : M S unit :=
  emit (ConsoleError label err).

Definition set {S : Type} (call : S) : M S unit := emit (SetState call).

Declare Scope async_scope.
Delimit Scope async_scope with async.
Notation "x <- m ;; k" := (bind m (fun x => k))
  (at level 100, m at next level, right associativity) : async_scope.
Notation "m ;; k" := (bind m (fun _ => k))
  (at level 100, right associativity) : async_scope.

End Async.

(* ================================================================== *)
(** ** The two "Top 10" tables (the same JSX in App.js and in part_001) *)
(* ================================================================== *)

Module Tables.
Import JS.

(** The rows of the two tables. *)
Record AnyRow := mkAnyRow {
  any_name : jsval;               (* {g.name} *)
  any_remaining : text;           (* {g.remaining_prizes.toLocaleString()} *)
  any_total : text;               (* {g.total_prizes.toLocaleString()} *)
  any_percent : string            (* {(g.remaining_ratio * 100).toFixed(2)}% *)
}.

Record GrandRow := mkGrandRow {
  grand_name : jsval;             (* {g.name} *)
  grand_remaining : text          (* {g.grand_prizes_remaining.toLocaleString()} *)
}.

(** The cell of the "Remaining %" column. *)
Definition percent (js : Engine) (ratio : jsval) : option string :=
  option_map (fun x => toFixed2 js (mul x (of_Z 100)) ++ "%") (ToNumber js ratio).

Definition any_row (js : Engine) (g : json) : option AnyRow :=
  bind_opt (field (Some g) Field.name) (fun name =>
  bind_opt (field (Some g) Field.remaining_prizes) (fun remaining =>
  bind_opt (toLocaleString remaining) (fun remaining_text =>
  bind_opt (field (Some g) Field.total_prizes) (fun total =>
  bind_opt (toLocaleString total) (fun total_text =>
  bind_opt (field (Some g) Field.remaining_ratio) (fun ratio =>
  bind_opt (percent js ratio) (fun pct =>
  Some (mkAnyRow name remaining_text total_text pct)))))))).

Definition grand_row (g : json) : option GrandRow :=
  bind_opt (field (Some g) Field.name) (fun name =>
  bind_opt (field (Some g) Field.grand_prizes_remaining) (fun remaining =>
  bind_opt (toLocaleString remaining) (fun remaining_text =>
  Some (mkGrandRow name remaining_text)))).

End Tables.

(* ================================================================== *)
(** ** src/frontend/src/App.js: best_any, best_grand and history *)
(* ================================================================== *)

Module History.
Import JS Async Tables.
Local Open Scope async_scope.

Definition API_BASE : string := "https://ny-scratch-backend.onrender.com/api".
Definition unavailable : string := "Unable to load data. Please try again later.".

(** The five [useState] slots, with their initial values. *)
Record State := mkState {
  bestAny : json;
  bestGrand : json;
  lastUpdated : option Date;      (* null or a Date *)
  loading : bool;
  error : option string           (* null or a message *)
}.

Definition initial : State :=
  {| bestAny := JArr []; bestGrand := JArr [];
     lastUpdated := None; loading := true; error := None |}.

Inductive Setter :=
| setBestAny (v : json)
| setBestGrand (v : json)
| setLastUpdated (d : Date)
| setError (message : string)
| setLoading (b : bool).

(** What the three endpoints answer during one activation. *)
Record Network := mkNetwork {
  best_any : Reply Response;
  best_grand : Reply Response;
  history : Reply Response
}.

(** Lines 34-37:
    [if (historyData.length > 0) { const latest = historyData[historyData.length - 1].timestamp;
                                   setLastUpdated(new Date(latest)); }] *)
Definition update_from_history (js : Engine) (historyData : json) : M Setter unit :=
  positive <- lift (length_gt_0 js historyData) ;;
  if (positive : bool) then
    item <- lift (last_item js historyData) ;;
    latest <- lift (field item Field.timestamp) ;;
    d <- lift (new_Date js latest) ;;
    set (setLastUpdated d)
  else ret tt.

(** App.js, lines 14-44. *)
Definition fetchData (js : Engine) (net : Network) : M Setter unit :=
  try_catch_finally
    (p1 <- fetch (API_BASE ++ "/best_any") (best_any net) ;;
     p2 <- fetch (API_BASE ++ "/best_grand") (best_grand net) ;;
     p3 <- fetch (API_BASE ++ "/history") (history net) ;;
     rs <- await (Promise_all3 p1 p2 p3) ;;
     let '(anyRes, (grandRes, histRes)) := rs in
     if negb (ok anyRes) || negb (ok grandRes) || negb (ok histRes)
     then throw (Error "Backend request failed")
     else
       q1 <- Response_json anyRes ;;
       q2 <- Response_json grandRes ;;
       q3 <- Response_json histRes ;;
       ds <- await (Promise_all3 q1 q2 q3) ;;
       let '(anyData, (grandData, historyData)) := ds in
       set (setBestAny anyData) ;;
       set (setBestGrand grandData) ;;
       update_from_history js historyData)
    (fun err =>
       console_error "Error fetching data:" err ;;
       set (setError unavailable))
    (set (setLoading false)).

(** React's state after a setter call. *)
Definition apply (st : State) (c : Setter) : State :=
  match c with
  | setBestAny v => mkState v (bestGrand st) (lastUpdated st) (loading st) (error st)
  | setBestGrand v => mkState (bestAny st) v (lastUpdated st) (loading st) (error st)
  | setLastUpdated d => mkState (bestAny st) (bestGrand st) (Some d) (loading st) (error st)
  | setError m => mkState (bestAny st) (bestGrand st) (lastUpdated st) (loading st) (Some m)
  | setLoading b => mkState (bestAny st) (bestGrand st) (lastUpdated st) b (error st)
  end.

Definition step (st : State) (e : nat * Effect Setter) : State :=
  match snd e with
  | SetState c => apply st c
  | _ => st
  end.

Definition after (es : list (nat * Effect Setter)) : State := fold_left step es initial.

(** One activation: the component mounts at tick 0 and its effect calls
    [fetchData()]. *)
Definition activation (js : Engine) (net : Network) : Run Setter unit := fetchData js net 0.
Definition final (js : Engine) (net : Network) : State := after (effects (activation js net)).

Record Page := mkPage {
  updated : option Date;          (* {lastUpdated && <p className="updated">...</p>} *)
  any_rows : list AnyRow;
  grand_rows : list GrandRow
}.

(** What [App] returns: one of its three [return]s; building the data page
    may throw ([None]). *)
Inductive View :=
| LoadingView
| ErrorView (message : string)
| DataView (page : option Page).

Definition page (js : Engine) (st : State) : option Page :=
  bind_opt (array_map (any_row js) (bestAny st)) (fun rows1 =>
  bind_opt (array_map grand_row (bestGrand st)) (fun rows2 =>
  Some (mkPage (lastUpdated st) rows1 rows2))).

(** [if (loading) return ...; if (error) return ...; return ...]. *)
Definition App (js : Engine) (st : State) : View :=
  if loading st then LoadingView
  else
    match error st with
    | Some m => if String.eqb m "" then DataView (page js st) else ErrorView m
    | None => DataView (page js st)
    end.

(** *** The runs of [fetchData], path by path *)

(** Lines 34-36 without the setter call: the Date that would be stored
    ([Some None]: the [if] is not entered; [None]: a TypeError is thrown). *)
Definition latest_date (js : Engine) (h : json) : option (option Date) :=
  bind_opt (length_gt_0 js h) (fun positive =>
    if (positive : bool) then
      bind_opt (last_item js h) (fun item =>
      bind_opt (field item Field.timestamp) (fun latest =>
      option_map Some (new_Date js latest)))
    else Some None).

Definition issue : list (nat * Effect Setter) :=
  [(0, Fetch (API_BASE ++ "/best_any")); (0, Fetch (API_BASE ++ "/best_grand"));
   (0, Fetch (API_BASE ++ "/history"))].

(** The [catch] clause followed by the [finally] clause, at the instant [t]. *)
Definition failure (t : nat) (e : exn) : list (nat * Effect Setter) :=
  [(t, ConsoleError "Error fetching data:" e); (t, SetState (setError unavailable));
   (t, SetState (setLoading false))].

Definition date_effect (t : nat) (o : option Date) : list (nat * Effect Setter) :=
  match o with
  | Some d => [(t, SetState (setLastUpdated d))]
  | None => []
  end.

Definition fetched (net : Network) : Promise (Response * (Response * Response)) :=
  Promise_all3 (sent (best_any net) 0) (sent (best_grand net) 0) (sent (history net) 0).

Definition parsed (t : nat) (r1 r2 r3 : Response) : Promise (json * (json * json)) :=
  Promise_all3 (sent (body r1) t) (sent (body r2) t) (sent (body r3) t).

Definition some_not_ok (r1 r2 r3 : Response) : bool :=
  negb (ok r1) || negb (ok r2) || negb (ok r3).

(** The five ways through [fetchData]. *)
Inductive Path (js : Engine) (net : Network) : Run Setter unit -> Prop :=
| fetch_rejected t e :
    fetched net = mkPromise t (inl e) ->
    Path js net (mkRun (inr tt) t (issue ++ failure t e)%list)
| bad_status t r1 r2 r3 :
    fetched net = mkPromise t (inr (r1, (r2, r3))) ->
    some_not_ok r1 r2 r3 = true ->
    Path js net (mkRun (inr tt) t (issue ++ failure t (Error "Backend request failed"))%list)
| body_rejected t r1 r2 r3 t' e :
    fetched net = mkPromise t (inr (r1, (r2, r3))) ->
    some_not_ok r1 r2 r3 = false ->
    parsed t r1 r2 r3 = mkPromise t' (inl e) ->
    Path js net (mkRun (inr tt) (Nat.max t t') (issue ++ failure (Nat.max t t') e)%list)
| history_throws t r1 r2 r3 t' d1 d2 d3 :
    fetched net = mkPromise t (inr (r1, (r2, r3))) ->
    some_not_ok r1 r2 r3 = false ->
    parsed t r1 r2 r3 = mkPromise t' (inr (d1, (d2, d3))) ->
    latest_date js d3 = None ->
    Path js net (mkRun (inr tt) (Nat.max t t')
      (issue ++ [(Nat.max t t', SetState (setBestAny d1));
                 (Nat.max t t', SetState (setBestGrand d2))]
             ++ failure (Nat.max t t') TypeError)%list)
| loaded t r1 r2 r3 t' d1 d2 d3 o :
    fetched net = mkPromise t (inr (r1, (r2, r3))) ->
    some_not_ok r1 r2 r3 = false ->
    parsed t r1 r2 r3 = mkPromise t' (inr (d1, (d2, d3))) ->
    latest_date js d3 = Some o ->
    Path js net (mkRun (inr tt) (Nat.max t t')
      (issue ++ [(Nat.max t t', SetState (setBestAny d1));
                 (Nat.max t t', SetState (setBestGrand d2))]
             ++ date_effect (Nat.max t t') o
             ++ [(Nat.max t t', SetState (setLoading false))])%list).

End History.

(* ================================================================== *)
(** ** src/unnamed/part_000: best_any and recommendation *)
(* ================================================================== *)

Module Recommendation.
Import JS Async.
Local Open Scope async_scope.

Definition API_BASE : string := "https://ny-scratch-backend.onrender.com/api".
Definition unavailable : string := "Unable to load data. Please try again later.".

Record State := mkState {
  games : json;
  best : json;
  loading : bool;
  error : option string
}.

Definition initial : State :=
  {| games := JArr []; best := JNull; loading := true; error := None |}.

Inductive Setter :=
| setGames (v : json)
| setBest (v : json)
| setError (message : string)
| setLoading (b : bool).

Record Network := mkNetwork {
  best_any : Reply Response;
  recommendation : Reply Response
}.

(** part_000, lines 14-36: the two bodies are read one after the other. *)
Definition fetchData (net : Network) : M Setter unit :=
  try_catch_finally
    (p1 <- fetch (API_BASE ++ "/best_any") (best_any net) ;;
     p2 <- fetch (API_BASE ++ "/recommendation") (recommendation net) ;;
     rs <- await (Promise_all2 p1 p2) ;;
     let '(gamesRes, bestRes) := rs in
     if negb (ok gamesRes) || negb (ok bestRes)
     then throw (Error "Backend request failed")
     else
       q1 <- Response_json gamesRes ;;
       gamesData <- await q1 ;;
       q2 <- Response_json bestRes ;;
       bestData <- await q2 ;;
       set (setGames gamesData) ;;
       set (setBest bestData))
    (fun err =>
       console_error "Error fetching data:" err ;;
       set (setError unavailable))
    (set (setLoading false)).

Definition apply (st : State) (c : Setter) : State :=
  match c with
  | setGames v => mkState v (best st) (loading st) (error st)
  | setBest v => mkState (games st) v (loading st) (error st)
  | setError m => mkState (games st) (best st) (loading st) (Some m)
  | setLoading b => mkState (games st) (best st) b (error st)
  end.

Definition step (st : State) (e : nat * Effect Setter) : State :=
  match snd e with
  | SetState c => apply st c
  | _ => st
  end.

Definition after (es : list (nat * Effect Setter)) : State := fold_left step es initial.

Definition activation (net : Network) : Run Setter unit := fetchData net 0.
Definition final (net : Network) : State := after (effects (activation net)).

(** The "Best Ticket to Play" card. *)
Record Card := mkCard {
  card_name : jsval;                    (* {best.name} *)
  card_expected_value : option string;  (* after "Expected Value: $": {best.expected_value?.toFixed(2)} *)
  card_remaining : jsval;               (* {best.remaining_prizes} *)
  card_grand : jsval                    (* {best.grand_prizes_remaining} *)
}.

(** [v?.toFixed(2)]: [undefined] on [null] and [undefined]; only a number
    has a [toFixed] to call. *)
Definition optional_toFixed2 (js : Engine) (v : jsval) : option (option string) :=
  match v with
  | None | Some JNull => Some None
  | Some (JNum x) => Some (Some (toFixed2 js x))
  | Some _ => None
  end.

Definition card (js : Engine) (b : json) : option Card :=
  bind_opt (field (Some b) Field.name) (fun name =>
  bind_opt (field (Some b) Field.expected_value) (fun ev =>
  bind_opt (optional_toFixed2 js ev) (fun ev_text =>
  bind_opt (field (Some b) Field.remaining_prizes) (fun remaining =>
  bind_opt (field (Some b) Field.grand_prizes_remaining) (fun grand =>
  Some (mkCard name ev_text remaining grand)))))).

(** [{best && <div className="card">...</div>}]: a falsy [best] is itself
    the child, and React shows nothing for [null]. *)
Inductive CardSlot :=
| NoCard (falsy : json)
| ShowCard (c : Card).

Record GameRow := mkGameRow {
  game_name : jsval;              (* {g.name} *)
  game_prize : text;              (* after "$": {Number(g.prize_amount).toLocaleString()} *)
  game_remaining : jsval;         (* {g.remaining_prizes} *)
  game_total : jsval;             (* {g.total_prizes} *)
  game_expected_value : string    (* after "$": {Number(g.expected_value).toFixed(2)} *)
}.

Definition game_row (js : Engine) (g : json) : option GameRow :=
  bind_opt (field (Some g) Field.name) (fun name =>
  bind_opt (field (Some g) Field.prize_amount) (fun prize =>
  bind_opt (ToNumber js prize) (fun prize_number =>
  bind_opt (field (Some g) Field.remaining_prizes) (fun remaining =>
  bind_opt (field (Some g) Field.total_prizes) (fun total =>
  bind_opt (field (Some g) Field.expected_value) (fun ev =>
  bind_opt (ToNumber js ev) (fun ev_number =>
  Some (mkGameRow name (LocaleNumber prize_number) remaining total
          (toFixed2 js ev_number))))))))).

Record Page := mkPage {
  best_card : CardSlot;
  game_rows : list GameRow
}.

Inductive View :=
| LoadingView
| ErrorView (message : string)
| DataView (page : option Page).

Definition card_slot (js : Engine) (b : json) : option CardSlot :=
  if truthy (Some b) then option_map ShowCard (card js b) else Some (NoCard b).

Definition page (js : Engine) (st : State) : option Page :=
  bind_opt (card_slot js (best st)) (fun c =>
  bind_opt (array_map (game_row js) (games st)) (fun rows =>
  Some (mkPage c rows))).

(** [if (loading) return ...; if (error) return ...; return ...]. *)
Definition App (js : Engine) (st : State) : View :=
  if loading st then LoadingView
  else
    match error st with
    | Some m => if String.eqb m "" then DataView (page js st) else ErrorView m
    | None => DataView (page js st)
    end.

(** *** The runs of [fetchData], path by path *)

Definition issue : list (nat * Effect Setter) :=
  [(0, Fetch (API_BASE ++ "/best_any")); (0, Fetch (API_BASE ++ "/recommendation"))].

Definition failure (t : nat) (e : exn) : list (nat * Effect Setter) :=
  [(t, ConsoleError "Error fetching data:" e); (t, SetState (setError unavailable));
   (t, SetState (setLoading false))].

Definition fetched (net : Network) : Promise (Response * Response) :=
  Promise_all2 (sent (best_any net) 0) (sent (recommendation net) 0).

(** When [await p] resumes a function that is at the instant [now]. *)
Definition resumed (now : nat) {A : Type} (p : Promise A) : nat := Nat.max now (settled_at p).

Inductive Path (net : Network) : Run Setter unit -> Prop :=
| fetch_rejected t e :
    fetched net = mkPromise t (inl e) ->
    Path net (mkRun (inr tt) t (issue ++ failure t e)%list)
| bad_status t r1 r2 :
    fetched net = mkPromise t (inr (r1, r2)) ->
    negb (ok r1) || negb (ok r2) = true ->
    Path net (mkRun (inr tt) t (issue ++ failure t (Error "Backend request failed"))%list)
| games_rejected t r1 r2 e :
    fetched net = mkPromise t (inr (r1, r2)) ->
    negb (ok r1) || negb (ok r2) = false ->
    answer (body r1) = inl e ->
    let t1 := resumed t (sent (body r1) t) in
    Path net (mkRun (inr tt) t1 (issue ++ failure t1 e)%list)
| best_rejected t r1 r2 d1 e :
    fetched net = mkPromise t (inr (r1, r2)) ->
    negb (ok r1) || negb (ok r2) = false ->
    answer (body r1) = inr d1 ->
    answer (body r2) = inl e ->
    let t1 := resumed t (sent (body r1) t) in
    let t2 := resumed t1 (sent (body r2) t1) in
    Path net (mkRun (inr tt) t2 (issue ++ failure t2 e)%list)
| loaded t r1 r2 d1 d2 :
    fetched net = mkPromise t (inr (r1, r2)) ->
    negb (ok r1) || negb (ok r2) = false ->
    answer (body r1) = inr d1 ->
    answer (body r2) = inr d2 ->
    let t1 := resumed t (sent (body r1) t) in
    let t2 := resumed t1 (sent (body r2) t1) in
    Path net (mkRun (inr tt) t2
      (issue ++ [(t2, SetState (setGames d1)); (t2, SetState (setBest d2));
                 (t2, SetState (setLoading false))])%list).

End Recommendation.

(* ================================================================== *)
(** ** src/unnamed/part_001: best_any and best_grand *)
(* ================================================================== *)

Module Grand.
Import JS Async Tables.
Local Open Scope async_scope.

Definition API_BASE : string := "https://ny-scratch-backend.onrender.com/api".
Definition unavailable : string := "Unable to load data. Please try again later.".

Record State := mkState {
  bestAny : json;
  bestGrand : json;
  loading : bool;
  error : option string
}.

Definition initial : State :=
  {| bestAny := JArr []; bestGrand := JArr []; loading := true; error := None |}.

Inductive Setter :=
| setBestAny (v : json)
| setBestGrand (v : json)
| setError (message : string)
| setLoading (b : bool).

Record Network := mkNetwork {
  best_any : Reply Response;
  best_grand : Reply Response
}.

(** part_001, lines 13-34. *)
Definition fetchData (net : Network) : M Setter unit :=
  try_catch_finally
    (p1 <- fetch (API_BASE ++ "/best_any") (best_any net) ;;
     p2 <- fetch (API_BASE ++ "/best_grand") (best_grand net) ;;
     rs <- await (Promise_all2 p1 p2) ;;
     let '(anyRes, grandRes) := rs in
     if negb (ok anyRes) || negb (ok grandRes)
     then throw (Error "Backend request failed")
     else
       q1 <- Response_json anyRes ;;
       anyData <- await q1 ;;
       q2 <- Response_json grandRes ;;
       grandData <- await q2 ;;
       set (setBestAny anyData) ;;
       set (setBestGrand grandData))
    (fun err =>
       console_error "Error fetching data:" err ;;
       set (setError unavailable))
    (set (setLoading false)).

Definition apply (st : State) (c : Setter) : State :=
  match c with
  | setBestAny v => mkState v (bestGrand st) (loading st) (error st)
  | setBestGrand v => mkState (bestAny st) v (loading st) (error st)
  | setError m => mkState (bestAny st) (bestGrand st) (loading st) (Some m)
  | setLoading b => mkState (bestAny st) (bestGrand st) b (error st)
  end.

Definition step (st : State) (e : nat * Effect Setter) : State :=
  match snd e with
  | SetState c => apply st c
  | _ => st
  end.

Definition after (es : list (nat * Effect Setter)) : State := fold_left step es initial.

Definition activation (net : Network) : Run Setter unit := fetchData net 0.
Definition final (net : Network) : State := after (effects (activation net)).

Record Page := mkPage {
  any_rows : list AnyRow;
  grand_rows : list GrandRow
}.

Inductive View :=
| LoadingView
| ErrorView (message : string)
| DataView (page : option Page).

Definition page (js : Engine) (st : State) : option Page :=
  bind_opt (array_map (any_row js) (bestAny st)) (fun rows1 =>
  bind_opt (array_map grand_row (bestGrand st)) (fun rows2 =>
  Some (mkPage rows1 rows2))).

(** [if (loading) return ...; if (error) return ...; return ...]. *)
Definition App (js : Engine) (st : State) : View :=
  if loading st then LoadingView
  else
    match error st with
    | Some m => if String.eqb m "" then DataView (page js st) else ErrorView m
    | None => DataView (page js st)
    end.

End Grand.

(* ================================================================== *)
(** ** Vocabulary of the statements, and the activations used as examples *)
(* ================================================================== *)

Module Activations.
Import JS Async.

(** The promise of this answer is rejected. *)
Definition rejected {A : Type} (r : Reply A) : bool :=
  match answer r with
  | inl _ => true
  | inr _ => false
  end.

(** The endpoint answered a success status and a body that parses to [d]. *)
Definition succeeded (r : Reply Response) (d : json) : Prop :=
  exists res, answer r = inr res /\ ok res = true /\ answer (body res) = inr d.

(** The endpoint met one of the three faults: the fetch was rejected, the
    status is outside 200..299, or the body could not be read as JSON. *)
Definition faulty (r : Reply Response) : bool :=
  match answer r with
  | inl _ => true
  | inr res => negb (ok res) || rejected (body res)
  end.

(** The effect is a call of [setLoading]. *)
Definition History_sets_loading (te : nat * Effect History.Setter) : bool :=
  match snd te with
  | SetState (History.setLoading _) => true
  | _ => false
  end.

Definition Recommendation_sets_loading (te : nat * Effect Recommendation.Setter) : bool :=
  match snd te with
  | SetState (Recommendation.setLoading _) => true
  | _ => false
  end.

(** The Number that [JSON.parse] makes of the literal [0.1234]: the binary64
    nearest to 1234/10000, which is the correctly rounded quotient of the
    two integers. *)
Definition ratio_0_1234 : number := div (of_Z 1234) (of_Z 10000).

(** Every effect of [es] happened when all the answers [rs] had arrived. *)
Definition after_all {S : Type} (rs : list (Reply Response)) (es : list (nat * Effect S)) : bool :=
  forallb (fun te => forallb (fun r => Nat.leb (latency r) (fst te)) rs) es.

(** [e] is the reason of a rejection among [rs] that arrived at [t], and no
    rejection among [rs] arrived before [t]. *)
Definition earliest_rejection (rs : list (Reply Response)) (t : nat) (e : exn) : Prop :=
  (exists r, In r rs /\ answer r = inl e /\ latency r = t) /\
  (forall r, In r rs -> rejected r = true -> t <= latency r).

(** Neither an array nor an object: ToPrimitive has nothing to call. *)
Definition primitive (v : jsval) : bool :=
  match v with
  | Some (JArr _) | Some (JObj _) => false
  | _ => true
  end.

(** An engine for the closed examples, none of which reaches a conversion
    between strings and numbers. *)
Definition example_engine : Engine :=
  {| StringToNumber := fun _ => NaN; NumberToString := fun _ => "NaN" |}.

Definition json_reply (status latency1 latency2 : nat) (d : json) : Reply Response :=
  mkReply latency1 (inr (mkResponse status (mkReply latency2 (inr d)))).

Definition stamp (t : string) : json := JObj [("timestamp", JStr t)].

(** All three endpoints answer 200; the history has two entries. *)
Definition healthy : History.Network :=
  History.mkNetwork
    (json_reply 200 3 1 (JArr []))
    (json_reply 200 5 2 (JArr []))
    (json_reply 200 4 9 (JArr [stamp "2025-01-01T00:00:00"; stamp "2025-01-02T00:00:00"])).

(** /best_grand answers 500. *)
Definition grand_500 : History.Network :=
  History.mkNetwork
    (json_reply 200 3 1 (JArr []))
    (json_reply 500 5 2 (JStr "Internal Server Error"))
    (json_reply 200 4 9 (JArr [])).

(** /best_any cannot be reached and fails after one tick; the other two
    answers arrive at ticks 5 and 9. *)
Definition offline_any : History.Network :=
  History.mkNetwork
    (mkReply 1 (inl (FetchRejected "Failed to fetch")))
    (json_reply 200 5 2 (JArr []))
    (json_reply 200 9 1 (JArr [])).

(** All three endpoints answer 200, and the body of /history is [null]. *)
Definition null_history : History.Network :=
  History.mkNetwork
    (json_reply 200 3 1 (JArr [JObj [("name", JStr "Cash Blast")]]))
    (json_reply 200 5 2 (JArr [JObj [("name", JStr "Set For Life")]]))
    (json_reply 200 4 9 JNull).

(** A ticket as /best_any lists it. *)
Definition cash_blast : json :=
  JObj [("name", JStr "Cash Blast"); ("prize_amount", JNum (of_Z 5000000));
        ("remaining_prizes", JNum (of_Z 1234)); ("total_prizes", JNum (of_Z 10000));
        ("expected_value", JNum (of_Z 7)); ("grand_prizes_remaining", JNum (of_Z 2));
        ("remaining_ratio", JNum ratio_0_1234)].

(** part_000: both endpoints answer 200, and the body of /recommendation is
    [null]. *)
Definition no_recommendation : Recommendation.Network :=
  Recommendation.mkNetwork
    (json_reply 200 3 1 (JArr [cash_blast]))
    (json_reply 200 5 2 JNull).

(** part_000: the body of /recommendation is cut off. *)
Definition truncated_recommendation : Recommendation.Network :=
  Recommendation.mkNetwork
    (json_reply 200 3 1 (JArr [cash_blast]))
    (mkReply 5 (inr (mkResponse 200 (mkReply 2 (inl (JsonRejected "Unexpected end of JSON input")))))).

End Activations.

(* ================================================================== *)
(** ** Further vocabulary: the runs of part_001, and what is read off a run *)
(* ================================================================== *)

Module GrandRuns.
Import JS Async Grand.

Definition issue : list (nat * Effect Setter) :=
  [(0, Fetch (API_BASE ++ "/best_any")); (0, Fetch (API_BASE ++ "/best_grand"))].

Definition failure (t : nat) (e : exn) : list (nat * Effect Setter) :=
  [(t, ConsoleError "Error fetching data:" e); (t, SetState (setError unavailable));
   (t, SetState (setLoading false))].

Definition fetched (net : Network) : Promise (Response * Response) :=
  Promise_all2 (sent (best_any net) 0) (sent (best_grand net) 0).

(** The five ways through [fetchData] of part_001. *)
Inductive Path (net : Network) : Run Setter unit -> Prop :=
| fetch_rejected t e :
    fetched net = mkPromise t (inl e) ->
    Path net (mkRun (inr tt) t (issue ++ failure t e)%list)
| bad_status t r1 r2 :
    fetched net = mkPromise t (inr (r1, r2)) ->
    negb (ok r1) || negb (ok r2) = true ->
    Path net (mkRun (inr tt) t (issue ++ failure t (Error "Backend request failed"))%list)
| any_rejected t r1 r2 e :
    fetched net = mkPromise t (inr (r1, r2)) ->
    negb (ok r1) || negb (ok r2) = false ->
    answer (body r1) = inl e ->
    let t1 := t + latency (body r1) in
    Path net (mkRun (inr tt) t1 (issue ++ failure t1 e)%list)
| grand_rejected t r1 r2 d1 e :
    fetched net = mkPromise t (inr (r1, r2)) ->
    negb (ok r1) || negb (ok r2) = false ->
    answer (body r1) = inr d1 ->
    answer (body r2) = inl e ->
    let t2 := t + latency (body r1) + latency (body r2) in
    Path net (mkRun (inr tt) t2 (issue ++ failure t2 e)%list)
| loaded t r1 r2 d1 d2 :
    fetched net = mkPromise t (inr (r1, r2)) ->
    negb (ok r1) || negb (ok r2) = false ->
    answer (body r1) = inr d1 ->
    answer (body r2) = inr d2 ->
    let t2 := t + latency (body r1) + latency (body r2) in
    Path net (mkRun (inr tt) t2
      (issue ++ [(t2, SetState (setBestAny d1)); (t2, SetState (setBestGrand d2));
                 (t2, SetState (setLoading false))])%list).

End GrandRuns.

Module Observations.
Import JS Async Activations.

(** The body an endpoint delivers when nothing goes wrong with it: the fetch
    is fulfilled, the status is in 200..299 and the body parses. *)
Definition delivered (r : Reply Response) : option json :=
  match answer r with
  | inl _ => None
  | inr res =>
      if ok res then
        match answer (body res) with
        | inl _ => None
        | inr d => Some d
        end
      else None
  end.

Definition is_fetch {S : Type} (te : nat * Effect S) : bool :=
  match snd te with
  | Fetch _ => true
  | _ => false
  end.

Definition is_log {S : Type} (te : nat * Effect S) : bool :=
  match snd te with
  | ConsoleError _ _ => true
  | _ => false
  end.

(** The setter calls of a run, in order. *)
Fixpoint calls {S : Type} (es : list (nat * Effect S)) : list S :=
  match es with
  | [] => []
  | (_, SetState c) :: rest => c :: calls rest
  | _ :: rest => calls rest
  end.

(** The slot a setter writes. *)
Definition History_slot (c : History.Setter) : string :=
  match c with
  | History.setBestAny _ => "bestAny"
  | History.setBestGrand _ => "bestGrand"
  | History.setLastUpdated _ => "lastUpdated"
  | History.setError _ => "error"
  | History.setLoading _ => "loading"
  end.

Definition Recommendation_slot (c : Recommendation.Setter) : string :=
  match c with
  | Recommendation.setGames _ => "games"
  | Recommendation.setBest _ => "best"
  | Recommendation.setError _ => "error"
  | Recommendation.setLoading _ => "loading"
  end.

Definition Grand_slot (c : Grand.Setter) : string :=
  match c with
  | Grand.setBestAny _ => "bestAny"
  | Grand.setBestGrand _ => "bestGrand"
  | Grand.setError _ => "error"
  | Grand.setLoading _ => "loading"
  end.

(** The final state of App.js as a function of the three answers alone. *)
Definition History_outcome (js : Engine) (net : History.Network) : History.State :=
  match delivered (History.best_any net), delivered (History.best_grand net),
        delivered (History.history net) with
  | Some d1, Some d2, Some d3 =>
      match History.latest_date js d3 with
      | Some o => History.mkState d1 d2 o false None
      | None => History.mkState d1 d2 None false (Some History.unavailable)
      end
  | _, _, _ => History.mkState (JArr []) (JArr []) None false (Some History.unavailable)
  end.

Definition Recommendation_outcome (net : Recommendation.Network) : Recommendation.State :=
  match delivered (Recommendation.best_any net),
        delivered (Recommendation.recommendation net) with
  | Some d1, Some d2 => Recommendation.mkState d1 d2 false None
  | _, _ => Recommendation.mkState (JArr []) JNull false (Some Recommendation.unavailable)
  end.

Definition Grand_outcome (net : Grand.Network) : Grand.State :=
  match delivered (Grand.best_any net), delivered (Grand.best_grand net) with
  | Some d1, Some d2 => Grand.mkState d1 d2 false None
  | _, _ => Grand.mkState (JArr []) (JArr []) false (Some Grand.unavailable)
  end.


(** A scalar: a boolean, a number or a string. *)
Definition scalar (v : json) : bool :=
  match v with
  | JBool _ | JNum _ | JStr _ => true
  | _ => false
  end.

(** A ticket record that the tables of part_000 can show: an object whose
    [prize_amount] and [expected_value], when present, are not arrays or
    objects. *)
Definition plain_game (g : json) : bool :=
  match g with
  | JObj props =>
      primitive (own props "prize_amount") && primitive (own props "expected_value")
  | _ => false
  end.

(** part_001: /best_grand answers 404 while /best_any succeeds. *)
Definition grand_404 : Grand.Network :=
  Grand.mkNetwork
    (json_reply 200 3 1 (JArr [cash_blast]))
    (json_reply 404 5 2 (JStr "Not Found")).

(** part_001: both endpoints succeed. *)
Definition grand_healthy : Grand.Network :=
  Grand.mkNetwork
    (json_reply 200 3 4 (JArr [cash_blast]))
    (json_reply 200 5 2 (JArr [])).

(** A ticket without the [remaining_prizes] member. *)
Definition no_remaining : json :=
  JObj [("name", JStr "Cash Blast"); ("total_prizes", JNum (of_Z 10000));
        ("remaining_ratio", JNum ratio_0_1234)].

End Observations.
(* ================================================================== *)
(** ** [Promise.all] *)
(* ================================================================== *)

Section PromiseAll2.
Import Async.
Context {A B : Type}.

Lemma Promise_all2_fulfilled (p : Promise A) (q : Promise B) t a b :
  Promise_all2 p q = mkPromise t (inr (a, b)) <->
  result p = inr a /\ result q = inr b /\ t = Nat.max (settled_at p) (settled_at q).
Proof.
  unfold Promise_all2.
  destruct (result p) as [e|a'], (result q) as [e'|b']; try destruct (Nat.ltb _ _);
    split; intros H; try discriminate; try (destruct H as (H1 & H2 & H3); discriminate).
  - inversion H; auto.
  - destruct H as (H1 & H2 & ->). inversion H1; inversion H2; reflexivity.
Qed.

Lemma Promise_all2_rejected (p : Promise A) (q : Promise B) t e :
  Promise_all2 p q = mkPromise t (inl e) <->
  (result p = inl e /\ t = settled_at p /\
     (forall e', result q = inl e' -> settled_at p <= settled_at q)) \/
  (result q = inl e /\ t = settled_at q /\
     (forall e', result p = inl e' -> settled_at q < settled_at p)).
Proof.
  unfold Promise_all2.
  destruct (result p) as [e1|a'], (result q) as [e2|b'].
  - destruct (Nat.ltb_spec (settled_at q) (settled_at p)); split; intros H'.
    + inversion H'; subst. right. repeat split; auto.
    + destruct H' as [(H1 & -> & H3)|(H1 & -> & H3)].
      * specialize (H3 _ eq_refl). lia.
      * inversion H1; reflexivity.
    + inversion H'; subst. left. repeat split; auto.
    + destruct H' as [(H1 & -> & H3)|(H1 & -> & H3)].
      * inversion H1; reflexivity.
      * specialize (H3 _ eq_refl). lia.
  - split; intros H'.
    + inversion H'; subst. left. repeat split; auto. intros; discriminate.
    + destruct H' as [(H1 & -> & H3)|(H1 & -> & H3)]; [inversion H1; reflexivity | discriminate].
  - split; intros H'.
    + inversion H'; subst. right. repeat split; auto. intros; discriminate.
    + destruct H' as [(H1 & -> & H3)|(H1 & -> & H3)]; [discriminate | inversion H1; reflexivity].
  - split; intros H'; [discriminate|].
    destruct H' as [(H1 & _)|(H1 & _)]; discriminate.
Qed.

(** A rejected [Promise.all] never waited past one of its rejections, and
    carries the reason of a rejection that happened at that instant. *)
Lemma Promise_all2_rejected_earliest (p : Promise A) (q : Promise B) t e :
  Promise_all2 p q = mkPromise t (inl e) ->
  ((result p = inl e /\ t = settled_at p) \/ (result q = inl e /\ t = settled_at q)) /\
  (forall e', result p = inl e' -> t <= settled_at p) /\
  (forall e', result q = inl e' -> t <= settled_at q).
Proof.
  intros H. apply Promise_all2_rejected in H.
  destruct H as [(H1 & -> & H3)|(H1 & -> & H3)].
  - split; [left; auto|]. split; intros e' He'; [lia | eauto].
  - split; [right; auto|]. split; intros e' He'; [apply H3 in He'; lia | lia].
Qed.

End PromiseAll2.

Section PromiseAll3.
Import Async.
Context {A B C : Type}.

Lemma Promise_all3_fulfilled (p : Promise A) (q : Promise B) (r : Promise C) t a b c :
  Promise_all3 p q r = mkPromise t (inr (a, (b, c))) <->
  result p = inr a /\ result q = inr b /\ result r = inr c /\
  t = Nat.max (settled_at p) (Nat.max (settled_at q) (settled_at r)).
Proof.
  unfold Promise_all3.
  destruct (Promise_all2 q r) as [t' res] eqn:E.
  split.
  - intros H. apply Promise_all2_fulfilled in H. cbn [result settled_at] in H.
    destruct H as (Hp & -> & ->). apply Promise_all2_fulfilled in E.
    destruct E as (Hq & Hr & ->). auto.
  - intros (Hp & Hq & Hr & ->).
    assert (E' : Promise_all2 q r = mkPromise (Nat.max (settled_at q) (settled_at r)) (inr (b, c)))
      by (apply Promise_all2_fulfilled; auto).
    rewrite E in E'. inversion E'; subst.
    apply Promise_all2_fulfilled. cbn [result settled_at]. auto.
Qed.

Lemma Promise_all3_rejected_earliest (p : Promise A) (q : Promise B) (r : Promise C) t e :
  Promise_all3 p q r = mkPromise t (inl e) ->
  ((result p = inl e /\ t = settled_at p) \/ (result q = inl e /\ t = settled_at q) \/
   (result r = inl e /\ t = settled_at r)) /\
  (forall e', result p = inl e' -> t <= settled_at p) /\
  (forall e', result q = inl e' -> t <= settled_at q) /\
  (forall e', result r = inl e' -> t <= settled_at r).
Proof.
  unfold Promise_all3. intros H.
  destruct (Promise_all2 q r) as [t' res] eqn:E.
  apply Promise_all2_rejected in H. cbn [result settled_at] in H.
  destruct H as [(H1 & -> & H3)|(H1 & -> & H3)].
  - split; [left; auto|]. split; [intros; lia|].
    destruct res as [e0|v].
    + specialize (H3 _ eq_refl). apply Promise_all2_rejected_earliest in E.
      destruct E as (_ & Hq & Hr). split; intros e' He'; [apply Hq in He' | apply Hr in He']; lia.
    + destruct v as [b c]. apply Promise_all2_fulfilled in E. destruct E as (Hq & Hr & _).
      split; intros e' He'; congruence.
  - subst res. apply Promise_all2_rejected_earliest in E.
    destruct E as (Hwho & Hq & Hr).
    split; [right; exact Hwho|].
    split; [intros e' He'; apply H3 in He'; lia|]. split; assumption.
Qed.

(** [Promise.all] is rejected exactly when one of its promises is. *)
Lemma Promise_all3_rejected_iff (p : Promise A) (q : Promise B) (r : Promise C) :
  (exists t e, Promise_all3 p q r = mkPromise t (inl e)) <->
  (exists e, result p = inl e) \/ (exists e, result q = inl e) \/ (exists e, result r = inl e).
Proof.
  split.
  - intros (t & e & H). apply Promise_all3_rejected_earliest in H.
    destruct H as ([(H & _)|[(H & _)|(H & _)]] & _); eauto.
  - intros H. destruct (Promise_all3 p q r) as [t [e|[a [b c]]]] eqn:E; eauto.
    apply Promise_all3_fulfilled in E. destruct E as (Hp & Hq & Hr & _).
    destruct H as [(e & H)|[(e & H)|(e & H)]]; congruence.
Qed.

End PromiseAll3.

(* ================================================================== *)
(** ** Every run of [fetchData] follows one of the paths *)
(* ================================================================== *)

Section HistoryRuns.
Import JS Async History.

Lemma update_from_history_run js h now :
  update_from_history js h now =
  match latest_date js h with
  | None => mkRun (inl TypeError) now []
  | Some o => mkRun (inr tt) now (date_effect now o)
  end.
Proof.
  unfold update_from_history, latest_date, bind, lift, bind_opt.
  destruct (length_gt_0 js h) as [[|]|]; cbn; try reflexivity.
  destruct (last_item js h) as [item|]; cbn; try reflexivity.
  destruct (field item Field.timestamp) as [latest|]; cbn; try reflexivity.
  destruct (new_Date js latest) as [d|]; cbn; reflexivity.
Qed.

Lemma History_activation_path js net : Path js net (activation js net).
Proof.
  unfold activation, fetchData, try_catch_finally, bind, fetch, await, Response_json.
  cbn [preceded_by].
  fold (fetched net).
  destruct (fetched net) as [t [e|[r1 [r2 r3]]]] eqn:HP;
    cbn [result settled_at Nat.max preceded_by].
  - apply fetch_rejected. exact HP.
  - fold (some_not_ok r1 r2 r3).
    destruct (some_not_ok r1 r2 r3) eqn:Hok; cbn [throw preceded_by].
    + eapply bad_status; eauto.
    + fold (parsed t r1 r2 r3).
      destruct (parsed t r1 r2 r3) as [t' [e|[d1 [d2 d3]]]] eqn:HQ;
        cbn [result settled_at preceded_by].
      * eapply body_rejected; eauto.
      * unfold set, emit. cbn [preceded_by].
        rewrite update_from_history_run.
        destruct (latest_date js d3) as [o|] eqn:Hd; cbn [preceded_by app].
        -- eapply loaded; eauto.
        -- eapply history_throws; eauto.
Qed.

(** The state the setter calls of each path lead to. *)
Lemma History_after_failure t e :
  after (issue ++ failure t e) = mkState (JArr []) (JArr []) None false (Some unavailable).
Proof. reflexivity. Qed.

Lemma History_after_partial t d1 d2 e :
  after (issue ++ [(t, SetState (setBestAny d1)); (t, SetState (setBestGrand d2))] ++ failure t e)
  = mkState d1 d2 None false (Some unavailable).
Proof. reflexivity. Qed.

Lemma History_after_loaded t d1 d2 o :
  after (issue ++ [(t, SetState (setBestAny d1)); (t, SetState (setBestGrand d2))]
               ++ date_effect t o ++ [(t, SetState (setLoading false))])
  = mkState d1 d2 o false None.
Proof. destruct o; reflexivity. Qed.

End HistoryRuns.

Section RecommendationRuns.
Import JS Async Recommendation.

Lemma Recommendation_activation_path net : Path net (activation net).
Proof.
  unfold activation, fetchData, try_catch_finally, bind, fetch, await, Response_json.
  cbn [preceded_by].
  fold (fetched net).
  destruct (fetched net) as [t [e|[r1 r2]]] eqn:HP;
    cbn [result settled_at Nat.max preceded_by].
  - apply fetch_rejected. exact HP.
  - destruct (negb (ok r1) || negb (ok r2)) eqn:Hok; cbn [throw preceded_by].
    + eapply bad_status; eauto.
    + fold (resumed t (sent (body r1) t)).
      destruct (answer (body r1)) as [e|d1] eqn:H1;
        unfold sent at 1; cbn [result preceded_by]; rewrite ?H1; cbn [preceded_by].
      * eapply games_rejected; eauto.
      * set (t1 := resumed t (sent (body r1) t)).
        fold (resumed t1 (sent (body r2) t1)).
        destruct (answer (body r2)) as [e|d2] eqn:H2;
          unfold sent at 1; cbn [result preceded_by]; rewrite ?H2; cbn [preceded_by].
        -- eapply (best_rejected net t r1 r2 d1 e); eauto.
        -- eapply (loaded net t r1 r2 d1 d2); eauto.
Qed.

Lemma Recommendation_after_failure t e :
  after (issue ++ failure t e) = mkState (JArr []) JNull false (Some unavailable).
Proof. reflexivity. Qed.

Lemma Recommendation_after_loaded t d1 d2 :
  after (issue ++ [(t, SetState (setGames d1)); (t, SetState (setBest d2));
                   (t, SetState (setLoading false))])
  = mkState d1 d2 false None.
Proof. reflexivity. Qed.

End RecommendationRuns.

(* ================================================================== *)
(** ** The claims *)
(* ================================================================== *)

Section Answers.
Import JS Async Activations.

Lemma sent_result {A : Type} (r : Reply A) now : result (sent r now) = answer r.
Proof. reflexivity. Qed.

Lemma sent_settled_at {A : Type} (r : Reply A) now : settled_at (sent r now) = now + latency r.
Proof. reflexivity. Qed.

Lemma History_fetched_fulfilled net t r1 r2 r3 :
  History.fetched net = mkPromise t (inr (r1, (r2, r3))) <->
  answer (History.best_any net) = inr r1 /\ answer (History.best_grand net) = inr r2 /\
  answer (History.history net) = inr r3 /\
  t = Nat.max (latency (History.best_any net))
        (Nat.max (latency (History.best_grand net)) (latency (History.history net))).
Proof. unfold History.fetched. rewrite Promise_all3_fulfilled. reflexivity. Qed.

Lemma History_parsed_fulfilled t r1 r2 r3 t' d1 d2 d3 :
  History.parsed t r1 r2 r3 = mkPromise t' (inr (d1, (d2, d3))) <->
  answer (body r1) = inr d1 /\ answer (body r2) = inr d2 /\ answer (body r3) = inr d3 /\
  t' = Nat.max (t + latency (body r1)) (Nat.max (t + latency (body r2)) (t + latency (body r3))).
Proof. unfold History.parsed. rewrite Promise_all3_fulfilled. reflexivity. Qed.

Lemma some_not_ok_false r1 r2 r3 :
  History.some_not_ok r1 r2 r3 = false <-> ok r1 = true /\ ok r2 = true /\ ok r3 = true.
Proof.
  unfold History.some_not_ok. rewrite !orb_false_iff, !negb_false_iff. tauto.
Qed.

End Answers.

Section Claims.
Import JS Async Activations.

(** C2.  Whenever one of the three endpoints of App.js fails (its fetch is
    rejected by a network fault, it answers a status outside 200..299, or
    its body cannot be read), the run consists of the three requests, the
    catch clause and the finally clause: the component ends up showing the
    error view with the one user-facing message, and none of the data slots
    has been written, they still hold their initial values. *)
Theorem failure_exposes_no_data (js : Engine) (net : History.Network) :
  existsb faulty [History.best_any net; History.best_grand net; History.history net] = true ->
  History.App js (History.final js net) = History.ErrorView History.unavailable /\
  History.final js net
    = History.mkState (JArr []) (JArr []) None false (Some History.unavailable) /\
  exists t e, effects (History.activation js net) = (History.issue ++ History.failure t e)%list.
Proof.
  intros Hfail. unfold History.final.
  destruct (History_activation_path js net) as
    [t e HP | t r1 r2 r3 HP Hok | t r1 r2 r3 t' e HP Hok HQ
     | t r1 r2 r3 t' d1 d2 d3 HP Hok HQ Hd | t r1 r2 r3 t' d1 d2 d3 o HP Hok HQ Hd];
    cbn [effects]; try (rewrite History_after_failure; repeat split; eauto).
  all: exfalso; apply History_fetched_fulfilled in HP; destruct HP as (H1 & H2 & H3 & _);
    apply History_parsed_fulfilled in HQ; destruct HQ as (B1 & B2 & B3 & _);
    apply some_not_ok_false in Hok; destruct Hok as (K1 & K2 & K3);
    unfold faulty, rejected in Hfail; cbn [existsb] in Hfail;
    rewrite H1, H2, H3, K1, K2, K3, B1, B2, B3 in Hfail; discriminate.
Qed.

Lemma failure_exposes_no_data_witness :
  faulty (History.best_grand grand_500) = true /\
  History.App example_engine (History.final example_engine grand_500)
    = History.ErrorView History.unavailable.
Proof.
  split; [reflexivity|].
  apply (proj1 (failure_exposes_no_data example_engine grand_500 eq_refl)).
Defined.

Lemma after_all_spec {S : Type} rs (es : list (nat * Effect S)) :
  after_all rs es = true <->
  forall te, In te es -> forall r, In r rs -> latency r <= fst te.
Proof.
  unfold after_all. rewrite forallb_forall. split; intros H te Hte.
  - intros r Hr. specialize (H te Hte). rewrite forallb_forall in H.
    apply Nat.leb_le. auto.
  - apply forallb_forall. intros r Hr. apply Nat.leb_le. auto.
Qed.

Lemma History_join js net :
  let rs := [History.best_any net; History.best_grand net; History.history net] in
  let es := effects (History.activation js net) in
  firstn 3 es = History.issue /\
  if existsb rejected rs
  then exists t e, skipn 3 es = History.failure t e /\ earliest_rejection rs t e
  else after_all rs (skipn 3 es) = true.
Proof.
  intros rs es. subst es.
  destruct (History_activation_path js net) as
    [t e HP | t r1 r2 r3 HP Hok | t r1 r2 r3 t' e HP Hok HQ
     | t r1 r2 r3 t' d1 d2 d3 HP Hok HQ Hd | t r1 r2 r3 t' d1 d2 d3 o HP Hok HQ Hd];
    cbn [effects]; (split; [reflexivity|]).
  1: { apply Promise_all3_rejected_earliest in HP. rewrite !sent_result, !sent_settled_at in HP.
    cbn [Nat.add] in HP. destruct HP as (Hwho & Hp & Hq & Hr).
    assert (Hex : existsb rejected rs = true).
    { subst rs. unfold rejected. cbn [existsb].
      destruct Hwho as [(H & _)|[(H & _)|(H & _)]]; rewrite H; cbn;
        rewrite ?orb_true_r; reflexivity. }
    rewrite Hex. exists t, e. split; [reflexivity|]. split.
    + subst rs. destruct Hwho as [(H & ->)|[(H & ->)|(H & ->)]];
        eexists; (split; [|split; [exact H | reflexivity]]); cbn; auto.
    + intros r Hin Hrej. unfold rejected in Hrej.
      destruct (answer r) as [e'|] eqn:Hr'; [|discriminate].
      subst rs. destruct Hin as [<-|[<-|[<-|[]]]]; eauto. }
  all: apply History_fetched_fulfilled in HP; destruct HP as (H1 & H2 & H3 & ->).
    all: assert (Hex : existsb rejected rs = false)
      by (subst rs; unfold rejected; cbn [existsb]; rewrite H1, H2, H3; reflexivity).
    all: rewrite Hex; apply after_all_spec; subst rs.
    all: intros te Hte r Hr; try destruct o.
    all: unfold History.issue, History.failure, History.date_effect in Hte.
    all: cbn [app skipn In] in Hte, Hr.
    all: repeat match goal with H : _ \/ _ |- _ => destruct H | H : False |- _ => destruct H end.
    all: subst; cbn [fst]; lia.
Qed.

Lemma Recommendation_fetched_fulfilled net t r1 r2 :
  Recommendation.fetched net = mkPromise t (inr (r1, r2)) <->
  answer (Recommendation.best_any net) = inr r1 /\
  answer (Recommendation.recommendation net) = inr r2 /\
  t = Nat.max (latency (Recommendation.best_any net))
              (latency (Recommendation.recommendation net)).
Proof. unfold Recommendation.fetched. rewrite Promise_all2_fulfilled. reflexivity. Qed.

Lemma resumed_le now {A : Type} (p : Promise A) : now <= Recommendation.resumed now p.
Proof. unfold Recommendation.resumed. lia. Qed.

Lemma Recommendation_join net :
  let rs := [Recommendation.best_any net; Recommendation.recommendation net] in
  let es := effects (Recommendation.activation net) in
  firstn 2 es = Recommendation.issue /\
  if existsb rejected rs
  then exists t e, skipn 2 es = Recommendation.failure t e /\ earliest_rejection rs t e
  else after_all rs (skipn 2 es) = true.
Proof.
  intros rs es. subst es.
  destruct (Recommendation_activation_path net) as
    [t e HP | t r1 r2 HP Hok | t r1 r2 e HP Hok H1 t1
     | t r1 r2 d1 e HP Hok H1 H2 t1 t2 | t r1 r2 d1 d2 HP Hok H1 H2 t1 t2];
    cbn [effects]; (split; [reflexivity|]).
  1: { apply Promise_all2_rejected_earliest in HP. rewrite !sent_result, !sent_settled_at in HP.
    cbn [Nat.add] in HP. destruct HP as (Hwho & Hp & Hq).
    assert (Hex : existsb rejected rs = true).
    { subst rs. unfold rejected. cbn [existsb].
      destruct Hwho as [(H & _)|(H & _)]; rewrite H; cbn; rewrite ?orb_true_r; reflexivity. }
    rewrite Hex. exists t, e. split; [reflexivity|]. split.
    + subst rs. destruct Hwho as [(H & ->)|(H & ->)];
        eexists; (split; [|split; [exact H | reflexivity]]); cbn; auto.
    + intros r Hin Hrej. unfold rejected in Hrej.
      destruct (answer r) as [e'|] eqn:Hr'; [|discriminate].
      subst rs. destruct Hin as [<-|[<-|[]]]; eauto. }
  all: apply Recommendation_fetched_fulfilled in HP; destruct HP as (K1 & K2 & ->).
  all: assert (Hex : existsb rejected rs = false)
    by (subst rs; unfold rejected; cbn [existsb]; rewrite K1, K2; reflexivity).
  all: rewrite Hex; apply after_all_spec; subst rs.
  all: intros te Hte r Hr.
  all: unfold Recommendation.issue, Recommendation.failure in Hte.
  all: cbn [app skipn In] in Hte, Hr.
  all: try pose proof (resumed_le _ (sent (body r1) _) : _ <= t1) as L1.
  all: try pose proof (resumed_le t1 (sent (body r2) t1) : t1 <= t2) as L2.
  all: repeat match goal with H : _ \/ _ |- _ => destruct H | H : False |- _ => destruct H end.
  all: subst te r; cbn [fst]; lia.
Qed.

(** C1 (as amended).  In App.js and in part_000 the requests are all issued
    at the instant of activation, before anything else happens.  When no
    fetch is rejected, whatever the statuses, nothing further happens until
    the last answer has arrived: the batch is evaluated after the join.  When
    a fetch is rejected, [Promise.all] does not wait for the others: the
    catch and finally clauses run at the instant of the earliest rejection,
    and they are all that runs. *)
Theorem join_unless_a_fetch_is_rejected (js : JS.Engine)
    (net : History.Network) (net' : Recommendation.Network) :
  (let rs := [History.best_any net; History.best_grand net; History.history net] in
   let es := effects (History.activation js net) in
   firstn 3 es = History.issue /\
   if existsb rejected rs
   then exists t e, skipn 3 es = History.failure t e /\ earliest_rejection rs t e
   else after_all rs (skipn 3 es) = true) /\
  (let rs := [Recommendation.best_any net'; Recommendation.recommendation net'] in
   let es := effects (Recommendation.activation net') in
   firstn 2 es = Recommendation.issue /\
   if existsb rejected rs
   then exists t e, skipn 2 es = Recommendation.failure t e /\ earliest_rejection rs t e
   else after_all rs (skipn 2 es) = true).
Proof.
  split; [apply History_join | apply Recommendation_join].
Qed.

(** C1 as stated fails: /best_any is rejected at tick 1, the error is logged
    and shown and Loading is left at tick 1, while the answers of
    /best_grand and /history are still on their way (ticks 5 and 9). *)
Lemma fail_fast_counterexample :
  (fun js => effects (History.activation js offline_any))
    = (fun _ => (History.issue ++ History.failure 1 (FetchRejected "Failed to fetch"))%list) /\
  after_all [History.best_any offline_any; History.best_grand offline_any;
             History.history offline_any]
    (History.failure 1 (FetchRejected "Failed to fetch")) = false /\
  latency (History.history offline_any) = 9.
Proof. repeat split. Qed.

(** What [succeeded] says about the two joins of App.js. *)
Lemma History_succeeded_fetched net d1 d2 d3 :
  succeeded (History.best_any net) d1 -> succeeded (History.best_grand net) d2 ->
  succeeded (History.history net) d3 ->
  exists t r1 r2 r3 t',
    History.fetched net = mkPromise t (inr (r1, (r2, r3))) /\
    History.some_not_ok r1 r2 r3 = false /\
    History.parsed t r1 r2 r3 = mkPromise t' (inr (d1, (d2, d3))).
Proof.
  intros (r1 & A1 & K1 & B1) (r2 & A2 & K2 & B2) (r3 & A3 & K3 & B3).
  eexists _, r1, r2, r3, _. split; [|split].
  - apply History_fetched_fulfilled. repeat split; eauto.
  - apply some_not_ok_false. auto.
  - apply History_parsed_fulfilled. repeat split; eauto.
Qed.

(** With three successful answers only the last two paths remain. *)
Lemma History_succeeded_run js net d1 d2 d3 :
  succeeded (History.best_any net) d1 -> succeeded (History.best_grand net) d2 ->
  succeeded (History.history net) d3 ->
  exists T,
    effects (History.activation js net) =
      match History.latest_date js d3 with
      | Some o =>
          History.issue ++ [(T, SetState (History.setBestAny d1));
                            (T, SetState (History.setBestGrand d2))]
            ++ History.date_effect T o ++ [(T, SetState (History.setLoading false))]
      | None =>
          History.issue ++ [(T, SetState (History.setBestAny d1));
                            (T, SetState (History.setBestGrand d2))]
            ++ History.failure T TypeError
      end%list.
Proof.
  intros S1 S2 S3.
  destruct (History_succeeded_fetched net d1 d2 d3 S1 S2 S3)
    as (t0 & q1 & q2 & q3 & t0' & F & K & P).
  destruct (History_activation_path js net) as
    [t e HP | t r1 r2 r3 HP Hok | t r1 r2 r3 t' e HP Hok HQ
     | t r1 r2 r3 t' d1' d2' d3' HP Hok HQ Hd | t r1 r2 r3 t' d1' d2' d3' o HP Hok HQ Hd];
    rewrite F in HP; inversion HP; subst; try congruence;
    rewrite P in HQ; inversion HQ; subst; rewrite Hd; cbn [effects]; eauto.
Qed.

Lemma latest_date_empty js : History.latest_date js (JArr []) = Some None.
Proof. reflexivity. Qed.

Lemma latest_date_last js pre e :
  History.latest_date js (JArr (pre ++ [e])) =
  bind_opt (field (Some e) Field.timestamp) (fun latest => option_map Some (new_Date js latest)).
Proof.
  unfold History.latest_date, length_gt_0, last_item, bind_opt at 1 2.
  rewrite length_app, Nat.add_comm. cbn [List.length Nat.add Nat.eqb negb].
  rewrite map_app. cbn [map]. rewrite last_last. reflexivity.
Qed.

(** On the sequences the service is meant to send, records whose timestamp
    is a string or a number, reading the latest timestamp does not throw. *)
Lemma latest_date_of_record js pre props :
  primitive (own props "timestamp") = true ->
  History.latest_date js (JArr (pre ++ [JObj props]))
  = Some (Some (NewDate (own props "timestamp"))).
Proof.
  intros Hprim. rewrite latest_date_last. cbn [field Field.key bind_opt].
  destruct (own props "timestamp") as [[| | | | |]|]; try discriminate; reflexivity.
Qed.

Lemma Grand_succeeded_run net d1 d2 :
  succeeded (Grand.best_any net) d1 -> succeeded (Grand.best_grand net) d2 ->
  exists T,
    effects (Grand.activation net) =
      [(0, Fetch (Grand.API_BASE ++ "/best_any")); (0, Fetch (Grand.API_BASE ++ "/best_grand"));
       (T, SetState (Grand.setBestAny d1)); (T, SetState (Grand.setBestGrand d2));
       (T, SetState (Grand.setLoading false))].
Proof.
  intros (r1 & A1 & K1 & B1) (r2 & A2 & K2 & B2).
  unfold Grand.activation, Grand.fetchData, try_catch_finally, bind, fetch, await, Response_json.
  cbn [preceded_by].
  assert (F : Promise_all2 (sent (Grand.best_any net) 0) (sent (Grand.best_grand net) 0)
              = mkPromise (Nat.max (0 + latency (Grand.best_any net))
                                   (0 + latency (Grand.best_grand net))) (inr (r1, r2)))
    by (apply Promise_all2_fulfilled; auto).
  rewrite F. cbn [result settled_at preceded_by]. rewrite K1, K2. cbn [negb orb preceded_by].
  rewrite !sent_result, B1. cbn [preceded_by]. rewrite B2. cbn [preceded_by app effects].
  eexists. reflexivity.
Qed.

Lemma succeeded_json_reply status l1 l2 d :
  ok (mkResponse status (mkReply l2 (inr d))) = true ->
  succeeded (json_reply status l1 l2 d) d.
Proof. intros H. eexists. repeat split. exact H. Qed.

(** C3 (as amended).  When every endpoint of App.js answers a success status
    and a body that parses, the bestAny and bestGrand slots end up holding
    the parsed bodies of /best_any and /best_grand.  The history body gets no
    slot of its own: when reading its latest timestamp does not throw, the
    final state is Ready (the data view) and lastUpdated holds the Date made
    from that timestamp, or stays null when the [if] is not entered; when it
    throws, the final state is Error.  In part_001, which has no history
    endpoint, the final state is Ready and each of the two slots holds the
    parsed body of its endpoint. *)
Theorem all_succeeded_slots (js : Engine) (net : History.Network) (net' : Grand.Network)
    (d1 d2 d3 : json) :
  (succeeded (History.best_any net) d1 -> succeeded (History.best_grand net) d2 ->
   succeeded (History.history net) d3 ->
   let st := History.final js net in
   History.bestAny st = d1 /\ History.bestGrand st = d2 /\
   match History.latest_date js d3 with
   | Some o => st = History.mkState d1 d2 o false None /\
               History.App js st = History.DataView (History.page js st)
   | None => History.App js st = History.ErrorView History.unavailable
   end) /\
  (succeeded (Grand.best_any net') d1 -> succeeded (Grand.best_grand net') d2 ->
   let st := Grand.final net' in
   st = Grand.mkState d1 d2 false None /\
   Grand.App js st = Grand.DataView (Grand.page js st)).
Proof.
  split.
  - intros S1 S2 S3 st. subst st. unfold History.final.
    destruct (History_succeeded_run js net d1 d2 d3 S1 S2 S3) as (T & ->).
    destruct (History.latest_date js d3) as [o|].
    + rewrite History_after_loaded. repeat split.
    + rewrite History_after_partial. repeat split.
  - intros S1 S2 st. subst st. unfold Grand.final.
    destruct (Grand_succeeded_run net' d1 d2 S1 S2) as (T & ->).
    split; reflexivity.
Qed.

Lemma all_succeeded_slots_witness :
  History.final example_engine healthy
    = History.mkState (JArr []) (JArr [])
        (Some (NewDate (Some (JStr "2025-01-02T00:00:00")))) false None /\
  History.App example_engine (History.final example_engine healthy)
    = History.DataView (History.page example_engine (History.final example_engine healthy)).
Proof.
  refine (proj2 (proj2 (proj1
    (all_succeeded_slots example_engine healthy
       (Grand.mkNetwork (History.best_any healthy) (History.best_grand healthy))
       (JArr []) (JArr [])
       (JArr [stamp "2025-01-01T00:00:00"; stamp "2025-01-02T00:00:00"])) _ _ _)));
    apply succeeded_json_reply; reflexivity.
Defined.

(** C3 as stated fails twice.  With the three endpoints answering 200 and
    bodies that parse, the body of /history being [null], the final state is
    Error.  And where the final state is Ready, the third slot does not hold
    the history body (here an array of two entries) but the Date made from
    the timestamp of the last entry. *)
Lemma null_history_counterexample :
  (succeeded (History.best_any null_history) (JArr [JObj [("name", JStr "Cash Blast")]]) /\
   succeeded (History.best_grand null_history) (JArr [JObj [("name", JStr "Set For Life")]]) /\
   succeeded (History.history null_history) JNull /\
   (fun js => History.App js (History.final js null_history))
     = (fun _ => History.ErrorView History.unavailable)) /\
  (succeeded (History.history healthy)
     (JArr [stamp "2025-01-01T00:00:00"; stamp "2025-01-02T00:00:00"]) /\
   (fun js => History.lastUpdated (History.final js healthy))
     = (fun _ => Some (NewDate (Some (JStr "2025-01-02T00:00:00"))))).
Proof.
  repeat split; try (apply succeeded_json_reply; reflexivity).
Qed.

(** C5.  In a successful activation of App.js whose history body is the
    sequence [items]: when [items] is empty, lastUpdated stays null; when it
    is not, lastUpdated is the Date made from the [timestamp] field of its
    final element, so for [..., {timestamp: t}] it is the Date of [t]. *)
Theorem last_updated_from_final_element (js : Engine) (net : History.Network)
    (items : list json) :
  succeeded (History.history net) (JArr items) ->
  History.error (History.final js net) = None ->
  (items = [] -> History.lastUpdated (History.final js net) = None) /\
  (forall pre e, items = (pre ++ [e])%list ->
     exists latest, field (Some e) Field.timestamp = Some latest /\
       History.lastUpdated (History.final js net) = Some (NewDate latest)) /\
  (forall pre t, items = (pre ++ [JObj [("timestamp", t)]])%list ->
     History.lastUpdated (History.final js net) = Some (NewDate (Some t))).
Proof.
  intros (r3' & A3 & K3 & B3) Hok. unfold History.final in *.
  assert (Hlast : forall pre e, items = (pre ++ [e])%list ->
     exists latest, field (Some e) Field.timestamp = Some latest /\
       History.lastUpdated (History.after (effects (History.activation js net)))
         = Some (NewDate latest)).
  { destruct (History_activation_path js net) as
      [t e HP | t r1 r2 r3 HP Hst | t r1 r2 r3 t' e HP Hst HQ
       | t r1 r2 r3 t' d1 d2 d3 HP Hst HQ Hd | t r1 r2 r3 t' d1 d2 d3 o HP Hst HQ Hd];
      cbn [effects] in *;
      rewrite ?History_after_failure, ?History_after_partial, ?History_after_loaded in *;
      try discriminate.
    apply History_fetched_fulfilled in HP. destruct HP as (_ & _ & H3 & _).
    apply History_parsed_fulfilled in HQ. destruct HQ as (_ & _ & H3' & _).
    assert (r3 = r3') by congruence. subst r3'.
    assert (d3 = JArr items) by congruence. subst d3.
    intros pre e ->. rewrite latest_date_last in Hd. unfold bind_opt in Hd.
    destruct (field (Some e) Field.timestamp) as [latest|]; [|discriminate].
    exists latest. split; [reflexivity|]. cbn [History.lastUpdated].
    unfold new_Date in Hd.
    destruct latest as [[| | | | |]|]; cbn [option_map] in Hd;
      try (destruct (ToString js _); cbn [option_map] in Hd); congruence. }
  split; [|split].
  - intros ->.
    destruct (History_activation_path js net) as
      [t e HP | t r1 r2 r3 HP Hst | t r1 r2 r3 t' e HP Hst HQ
       | t r1 r2 r3 t' d1 d2 d3 HP Hst HQ Hd | t r1 r2 r3 t' d1 d2 d3 o HP Hst HQ Hd];
      cbn [effects] in *;
      rewrite ?History_after_failure, ?History_after_partial, ?History_after_loaded in *;
      try discriminate.
    apply History_fetched_fulfilled in HP. destruct HP as (_ & _ & H3 & _).
    apply History_parsed_fulfilled in HQ. destruct HQ as (_ & _ & H3' & _).
    assert (r3 = r3') by congruence. subst r3'.
    assert (d3 = JArr []) by congruence. subst d3.
    rewrite latest_date_empty in Hd. cbn [History.lastUpdated]. congruence.
  - exact Hlast.
  - intros pre t Hitems. destruct (Hlast _ _ Hitems) as (latest & Hf & ->).
    cbn in Hf. congruence.
Qed.

Lemma last_updated_from_final_element_witness :
  History.lastUpdated (History.final example_engine healthy)
    = Some (NewDate (Some (JStr "2025-01-02T00:00:00"))).
Proof.
  refine (proj2 (proj2 (last_updated_from_final_element example_engine healthy
            [stamp "2025-01-01T00:00:00"; stamp "2025-01-02T00:00:00"] _ _))
          [stamp "2025-01-01T00:00:00"] (JStr "2025-01-02T00:00:00") _).
  - apply succeeded_json_reply. reflexivity.
  - reflexivity.
  - reflexivity.
Defined.

Lemma History_loading_prefix js net k :
  History.loading (History.after (firstn k (effects (History.activation js net))))
  = Nat.ltb k (List.length (effects (History.activation js net))).
Proof.
  destruct (History_activation_path js net) as
    [t e HP | t r1 r2 r3 HP Hst | t r1 r2 r3 t' e HP Hst HQ
     | t r1 r2 r3 t' d1 d2 d3 HP Hst HQ Hd | t r1 r2 r3 t' d1 d2 d3 o HP Hst HQ Hd];
    cbn [effects]; try destruct o;
    do 9 (destruct k as [|k]; [reflexivity|]); reflexivity.
Qed.

Lemma Recommendation_loading_prefix net k :
  Recommendation.loading
    (Recommendation.after (firstn k (effects (Recommendation.activation net))))
  = Nat.ltb k (List.length (effects (Recommendation.activation net))).
Proof.
  destruct (Recommendation_activation_path net) as
    [t e HP | t r1 r2 HP Hok | t r1 r2 e HP Hok H1 t1
     | t r1 r2 d1 e HP Hok H1 H2 t1 t2 | t r1 r2 d1 d2 HP Hok H1 H2 t1 t2];
    cbn [effects]; do 7 (destruct k as [|k]; [reflexivity|]); reflexivity.
Qed.

Lemma History_finalizer js net :
  let r := History.activation js net in
  outcome r = inr tt /\
  filter History_sets_loading (effects r) = [(clock r, SetState (History.setLoading false))] /\
  exists pre, effects r = (pre ++ [(clock r, SetState (History.setLoading false))])%list.
Proof.
  destruct (History_activation_path js net) as
    [t e HP | t r1 r2 r3 HP Hst | t r1 r2 r3 t' e HP Hst HQ
     | t r1 r2 r3 t' d1 d2 d3 HP Hst HQ Hd | t r1 r2 r3 t' d1 d2 d3 o HP Hst HQ Hd];
    cbn [outcome clock effects]; try destruct o;
    (split; [reflexivity|split; [reflexivity|]]);
    unfold History.issue, History.failure, History.date_effect; cbn [app].
  all: match goal with
       | |- exists pre, ?l = _ => exists (removelast l); reflexivity
       end.
Qed.

Lemma Recommendation_finalizer net :
  let r := Recommendation.activation net in
  outcome r = inr tt /\
  filter Recommendation_sets_loading (effects r)
    = [(clock r, SetState (Recommendation.setLoading false))] /\
  exists pre, effects r = (pre ++ [(clock r, SetState (Recommendation.setLoading false))])%list.
Proof.
  destruct (Recommendation_activation_path net) as
    [t e HP | t r1 r2 HP Hok | t r1 r2 e HP Hok H1 t1
     | t r1 r2 d1 e HP Hok H1 H2 t1 t2 | t r1 r2 d1 d2 HP Hok H1 H2 t1 t2];
    cbn [outcome clock effects];
    (split; [reflexivity|split; [reflexivity|]]);
    unfold Recommendation.issue, Recommendation.failure; cbn [app].
  all: match goal with
       | |- exists pre, ?l = _ => exists (removelast l); reflexivity
       end.
Qed.

(** C4.  In App.js and in part_000, every activation whose answers arrive
    runs [fetchData] to its end without an exception escaping; [setLoading]
    is called exactly once, with [false], by the finally clause, as the last
    effect of the run, on the success path and on every failure path alike;
    so the loading flag is true after every proper prefix of the effects and
    false from the last effect on: Loading is left once and not entered
    again. *)
Theorem loading_left_exactly_once (js : Engine)
    (net : History.Network) (net' : Recommendation.Network) :
  (let r := History.activation js net in
   outcome r = inr tt /\
   filter History_sets_loading (effects r) = [(clock r, SetState (History.setLoading false))] /\
   (exists pre, effects r = (pre ++ [(clock r, SetState (History.setLoading false))])%list) /\
   forall k, History.loading (History.after (firstn k (effects r)))
             = Nat.ltb k (List.length (effects r))) /\
  (let r := Recommendation.activation net' in
   outcome r = inr tt /\
   filter Recommendation_sets_loading (effects r)
     = [(clock r, SetState (Recommendation.setLoading false))] /\
   (exists pre, effects r
      = (pre ++ [(clock r, SetState (Recommendation.setLoading false))])%list) /\
   forall k, Recommendation.loading (Recommendation.after (firstn k (effects r)))
             = Nat.ltb k (List.length (effects r))).
Proof.
  split.
  - destruct (History_finalizer js net) as (H1 & H2 & H3).
    repeat split; auto. intros k. apply History_loading_prefix.
  - destruct (Recommendation_finalizer net') as (H1 & H2 & H3).
    repeat split; auto. intros k. apply Recommendation_loading_prefix.
Qed.

Lemma History_terminal js net :
  History.App js (History.final js net) = History.ErrorView History.unavailable \/
  History.App js (History.final js net)
    = History.DataView (History.page js (History.final js net)).
Proof.
  unfold History.final.
  destruct (History_activation_path js net) as
    [t e HP | t r1 r2 r3 HP Hst | t r1 r2 r3 t' e HP Hst HQ
     | t r1 r2 r3 t' d1 d2 d3 HP Hst HQ Hd | t r1 r2 r3 t' d1 d2 d3 o HP Hst HQ Hd];
    cbn [effects];
    rewrite ?History_after_failure, ?History_after_partial, ?History_after_loaded;
    auto.
Qed.

(** C7.  Along an activation of App.js the view is always one of the three
    returns of [App]; it is the loading view after every proper prefix of the
    effects, and from the last effect on it is the final view, which is
    either the error view with the message or the data view: Loading moves
    to Error or to Ready once, and the view it moved to stays. *)
Theorem lifecycle_is_monotonic (js : Engine) (net : History.Network) :
  let es := effects (History.activation js net) in
  (forall k, History.App js (History.after (firstn k es))
             = if Nat.ltb k (List.length es) then History.LoadingView
               else History.App js (History.final js net)) /\
  (History.App js (History.final js net) = History.ErrorView History.unavailable \/
   History.App js (History.final js net)
     = History.DataView (History.page js (History.final js net))).
Proof.
  intros es. split; [|apply History_terminal].
  intros k. pose proof (History_loading_prefix js net k) as L. fold es in L.
  destruct (Nat.ltb_spec k (List.length es)) as [Hlt|Hge].
  - unfold History.App. rewrite L. reflexivity.
  - rewrite firstn_all2 by exact Hge. reflexivity.
Qed.

Lemma History_faults_are_caught js net :
  outcome (History.activation js net) = inr tt /\
  (existsb faulty [History.best_any net; History.best_grand net; History.history net] = true ->
   History.error (History.final js net) = Some History.unavailable) /\
  (History.error (History.final js net) <> None ->
   (exists pre t e, effects (History.activation js net) = (pre ++ History.failure t e)%list) /\
   History.App js (History.final js net) = History.ErrorView History.unavailable).
Proof.
  unfold History.final.
  destruct (History_activation_path js net) as
    [t e HP | t r1 r2 r3 HP Hst | t r1 r2 r3 t' e HP Hst HQ
     | t r1 r2 r3 t' d1 d2 d3 HP Hst HQ Hd | t r1 r2 r3 t' d1 d2 d3 o HP Hst HQ Hd];
    cbn [outcome effects];
    rewrite ?History_after_failure, ?History_after_partial, ?History_after_loaded;
    cbn [History.error]; (split; [reflexivity|]); split; try reflexivity.
  all: try (intros _; split; [|reflexivity]).
  all: try solve [eexists History.issue, _, _; reflexivity].
  - eexists (History.issue ++ _)%list, _, _. rewrite <- app_assoc. reflexivity.
  - intros Hf. exfalso.
    apply History_fetched_fulfilled in HP. destruct HP as (A1 & A2 & A3 & _).
    apply History_parsed_fulfilled in HQ. destruct HQ as (B1 & B2 & B3 & _).
    apply some_not_ok_false in Hst. destruct Hst as (K1 & K2 & K3).
    unfold faulty, rejected in Hf. cbn [existsb] in Hf.
    rewrite A1, A2, A3, K1, K2, K3, B1, B2, B3 in Hf. discriminate.
  - intros Hn. congruence.
Qed.

Lemma Recommendation_faults_are_caught js net :
  outcome (Recommendation.activation net) = inr tt /\
  (existsb faulty [Recommendation.best_any net; Recommendation.recommendation net] = true ->
   Recommendation.error (Recommendation.final net) = Some Recommendation.unavailable) /\
  (Recommendation.error (Recommendation.final net) <> None ->
   (exists pre t e,
      effects (Recommendation.activation net) = (pre ++ Recommendation.failure t e)%list) /\
   Recommendation.App js (Recommendation.final net)
     = Recommendation.ErrorView Recommendation.unavailable).
Proof.
  unfold Recommendation.final.
  destruct (Recommendation_activation_path net) as
    [t e HP | t r1 r2 HP Hok | t r1 r2 e HP Hok H1 t1
     | t r1 r2 d1 e HP Hok H1 H2 t1 t2 | t r1 r2 d1 d2 HP Hok H1 H2 t1 t2];
    cbn [outcome effects];
    rewrite ?Recommendation_after_failure, ?Recommendation_after_loaded;
    cbn [Recommendation.error]; (split; [reflexivity|]); split; try reflexivity.
  all: try (intros _; split; [|reflexivity]).
  all: try solve [eexists Recommendation.issue, _, _; reflexivity].
  - intros Hf. exfalso.
    apply Recommendation_fetched_fulfilled in HP. destruct HP as (A1 & A2 & _).
    apply orb_false_iff in Hok. rewrite !negb_false_iff in Hok. destruct Hok as (K1 & K2).
    unfold faulty, rejected in Hf. cbn [existsb] in Hf.
    rewrite A1, A2, K1, K2, H1, H2 in Hf. discriminate.
  - intros Hn. congruence.
Qed.

(** C6.  In App.js and in part_000 no exception escapes [fetchData].  Any of
    the three fault kinds (a rejected fetch, a status outside 200..299, a
    body that cannot be read as JSON) makes the activation fail; and every
    failing activation, whatever was thrown, logs the thrown value with
    console.error, sets the error slot to the one fixed message and renders
    the error view with exactly that message: the view is the same for all
    faults and carries nothing but the message. *)
Theorem one_generic_error (js : Engine) (net : History.Network) (net' : Recommendation.Network) :
  (outcome (History.activation js net) = inr tt /\
   (existsb faulty [History.best_any net; History.best_grand net; History.history net] = true ->
    History.error (History.final js net) = Some History.unavailable) /\
   (History.error (History.final js net) <> None ->
    (exists pre t e, effects (History.activation js net) = (pre ++ History.failure t e)%list) /\
    History.App js (History.final js net) = History.ErrorView History.unavailable)) /\
  (outcome (Recommendation.activation net') = inr tt /\
   (existsb faulty [Recommendation.best_any net'; Recommendation.recommendation net'] = true ->
    Recommendation.error (Recommendation.final net') = Some Recommendation.unavailable) /\
   (Recommendation.error (Recommendation.final net') <> None ->
    (exists pre t e,
       effects (Recommendation.activation net') = (pre ++ Recommendation.failure t e)%list) /\
    Recommendation.App js (Recommendation.final net')
      = Recommendation.ErrorView Recommendation.unavailable)).
Proof.
  split; [apply History_faults_are_caught | apply Recommendation_faults_are_caught].
Qed.

Lemma one_generic_error_witness :
  (History.error (History.final example_engine grand_500) = Some History.unavailable /\
   History.App example_engine (History.final example_engine grand_500)
     = History.ErrorView History.unavailable) /\
  (Recommendation.error (Recommendation.final truncated_recommendation)
     = Some Recommendation.unavailable /\
   Recommendation.App example_engine (Recommendation.final truncated_recommendation)
     = Recommendation.ErrorView Recommendation.unavailable).
Proof.
  pose proof (one_generic_error example_engine grand_500 truncated_recommendation) as H.
  destruct H as ((_ & F1 & V1) & (_ & F2 & V2)).
  specialize (F1 eq_refl). specialize (F2 eq_refl).
  split; (split; [assumption|]).
  - apply V1. rewrite F1. discriminate.
  - apply V2. rewrite F2. discriminate.
Defined.

(** C9.  In App.js, when the three endpoints answer a success status, the
    first two bodies parse to [d1] and [d2] and the history body parses to
    [null], reading [historyData.length] throws after [setBestAny(d1)] and
    [setBestGrand(d2)] have run: the final state holds [d1] and [d2] in its
    slots and the error message, and [App] returns the error view.  The data
    page computed from that state is the page of [d1] and [d2]; it is only
    not shown, because [App] looks at the error slot first. *)
Theorem error_after_partial_writes (js : Engine) (net : History.Network) (d1 d2 : json) :
  succeeded (History.best_any net) d1 -> succeeded (History.best_grand net) d2 ->
  succeeded (History.history net) JNull ->
  (exists T, effects (History.activation js net)
     = (History.issue ++ [(T, SetState (History.setBestAny d1));
                          (T, SetState (History.setBestGrand d2))]
          ++ History.failure T TypeError)%list) /\
  History.final js net = History.mkState d1 d2 None false (Some History.unavailable) /\
  History.App js (History.final js net) = History.ErrorView History.unavailable /\
  History.page js (History.final js net)
    = bind_opt (array_map (Tables.any_row js) d1) (fun rows1 =>
      bind_opt (array_map Tables.grand_row d2) (fun rows2 =>
      Some (History.mkPage None rows1 rows2))).
Proof.
  intros S1 S2 S3. unfold History.final.
  destruct (History_succeeded_run js net d1 d2 JNull S1 S2 S3) as (T & E).
  change (History.latest_date js JNull) with (@None (option Date)) in E.
  rewrite E. split; [eauto|]. rewrite History_after_partial. repeat split.
Qed.

Lemma error_after_partial_writes_witness :
  History.final example_engine null_history
    = History.mkState (JArr [JObj [("name", JStr "Cash Blast")]])
        (JArr [JObj [("name", JStr "Set For Life")]]) None false (Some History.unavailable) /\
  History.App example_engine (History.final example_engine null_history)
    = History.ErrorView History.unavailable.
Proof.
  pose proof (error_after_partial_writes example_engine null_history
                (JArr [JObj [("name", JStr "Cash Blast")]])
                (JArr [JObj [("name", JStr "Set For Life")]])) as H.
  destruct H as (_ & F & V & _); try (apply succeeded_json_reply; reflexivity).
  split; assumption.
Defined.

Lemma Recommendation_succeeded_run net d1 d2 :
  succeeded (Recommendation.best_any net) d1 -> succeeded (Recommendation.recommendation net) d2 ->
  exists T,
    effects (Recommendation.activation net) =
      (Recommendation.issue ++ [(T, SetState (Recommendation.setGames d1));
                                (T, SetState (Recommendation.setBest d2));
                                (T, SetState (Recommendation.setLoading false))])%list.
Proof.
  intros (q1 & A1 & K1 & B1) (q2 & A2 & K2 & B2).
  assert (F : Recommendation.fetched net
              = mkPromise (Nat.max (latency (Recommendation.best_any net))
                                   (latency (Recommendation.recommendation net)))
                          (inr (q1, q2)))
    by (apply Recommendation_fetched_fulfilled; auto).
  destruct (Recommendation_activation_path net) as
    [t e HP | t r1 r2 HP Hok | t r1 r2 e HP Hok H1 t1
     | t r1 r2 d1' e HP Hok H1 H2 t1 t2 | t r1 r2 d1' d2' HP Hok H1 H2 t1 t2];
    rewrite F in HP; inversion HP; subst; try congruence.
  - rewrite K1, K2 in Hok. discriminate.
  - cbn [effects]. exists t2. congruence.
Qed.

(** C10.  In part_000, when both endpoints answer a success status, the
    games body parses to [gs] and the recommendation body parses to [null],
    the final state is Ready, not Error: the slots hold [gs] and [null], no
    error is set, and [App] returns the data view, in which the card is
    left out (the child is the [null] itself) and the table is the table of
    [gs], as it is built whatever [best] is. *)
Theorem null_recommendation_omits_card (js : Engine) (net : Recommendation.Network) (gs : json) :
  succeeded (Recommendation.best_any net) gs ->
  succeeded (Recommendation.recommendation net) JNull ->
  Recommendation.final net = Recommendation.mkState gs JNull false None /\
  Recommendation.App js (Recommendation.final net)
    = Recommendation.DataView
        (option_map (Recommendation.mkPage (Recommendation.NoCard JNull))
                    (array_map (Recommendation.game_row js) gs)).
Proof.
  intros S1 S2. unfold Recommendation.final.
  destruct (Recommendation_succeeded_run net gs JNull S1 S2) as (T & ->).
  rewrite Recommendation_after_loaded. split; [reflexivity|].
  unfold Recommendation.App, Recommendation.page, Recommendation.card_slot.
  cbn [Recommendation.loading Recommendation.error Recommendation.best Recommendation.games
       truthy bind_opt].
  destruct (array_map (Recommendation.game_row js) gs); reflexivity.
Qed.

Lemma null_recommendation_omits_card_witness :
  Recommendation.App example_engine (Recommendation.final no_recommendation)
  = Recommendation.DataView (Some (Recommendation.mkPage (Recommendation.NoCard JNull)
      [Recommendation.mkGameRow (Some (JStr "Cash Blast")) (LocaleNumber (of_Z 5000000))
         (Some (JNum (of_Z 1234))) (Some (JNum (of_Z 10000))) "7.00"])).
Proof.
  refine (proj2 (null_recommendation_omits_card example_engine no_recommendation
                   (JArr [cash_blast]) _ _));
    apply succeeded_json_reply; reflexivity.
Defined.

(** C8.  For a ticket whose [remaining_ratio] is the number 0.1234, the cell
    of the "Remaining %" column, [(g.remaining_ratio * 100).toFixed(2)]
    followed by the percent sign, reads "12.34%" (the same JSX in App.js and
    in part_001). *)
Theorem remaining_percent_of_0_1234 (js : Engine) (g : json) (row : Tables.AnyRow) :
  field (Some g) Field.remaining_ratio = Some (Some (JNum ratio_0_1234)) ->
  Tables.any_row js g = Some row ->
  Tables.any_percent row = "12.34%" /\
  Tables.percent js (Some (JNum ratio_0_1234)) = Some "12.34%".
Proof.
  intros Hratio Hrow. split; [|reflexivity].
  unfold Tables.any_row, bind_opt in Hrow. rewrite Hratio in Hrow.
  destruct (field (Some g) Field.name); [|discriminate].
  destruct (field (Some g) Field.remaining_prizes) as [v1|]; [|discriminate].
  destruct (toLocaleString v1); [|discriminate].
  destruct (field (Some g) Field.total_prizes) as [v2|]; [|discriminate].
  destruct (toLocaleString v2); [|discriminate].
  change (Tables.percent js (Some (JNum ratio_0_1234))) with (Some "12.34%") in Hrow.
  inversion Hrow. reflexivity.
Qed.

Lemma remaining_percent_of_0_1234_witness :
  Tables.any_row example_engine cash_blast
    = Some (Tables.mkAnyRow (Some (JStr "Cash Blast")) (LocaleString (JNum (of_Z 1234)))
              (LocaleString (JNum (of_Z 10000))) "12.34%") /\
  Tables.any_percent
    (Tables.mkAnyRow (Some (JStr "Cash Blast")) (LocaleString (JNum (of_Z 1234)))
       (LocaleString (JNum (of_Z 10000))) "12.34%") = "12.34%".
Proof.
  split; [reflexivity|].
  apply (remaining_percent_of_0_1234 example_engine cash_blast); reflexivity.
Defined.

End Claims.

(* ================================================================== *)
(** ** Beyond the claims: the rest of the three components *)
(* ================================================================== *)

Section GrandPaths.
Import JS Async Activations Observations.

Lemma max_plus t l : Nat.max t (t + l) = t + l.
Proof. lia. Qed.

Lemma Grand_activation_path net : GrandRuns.Path net (Grand.activation net).
Proof.
  unfold Grand.activation, Grand.fetchData, try_catch_finally, bind, fetch, await, Response_json.
  cbn [preceded_by].
  fold (GrandRuns.fetched net).
  destruct (GrandRuns.fetched net) as [t [e|[r1 r2]]] eqn:HP;
    cbn [result settled_at Nat.max preceded_by].
  - apply GrandRuns.fetch_rejected. exact HP.
  - destruct (negb (ok r1) || negb (ok r2)) eqn:Hok; cbn [throw preceded_by].
    + eapply GrandRuns.bad_status; eauto.
    + unfold sent. cbn [result settled_at]. rewrite ?max_plus.
      destruct (answer (body r1)) as [e|d1] eqn:H1; cbn [preceded_by]; rewrite ?max_plus.
      * eapply GrandRuns.any_rejected; eauto.
      * destruct (answer (body r2)) as [e|d2] eqn:H2; cbn [preceded_by]; rewrite ?max_plus.
        -- eapply (GrandRuns.grand_rejected net t r1 r2 d1 e); eauto.
        -- eapply (GrandRuns.loaded net t r1 r2 d1 d2); eauto.
Qed.

Lemma Grand_fetched_fulfilled net t r1 r2 :
  GrandRuns.fetched net = mkPromise t (inr (r1, r2)) <->
  answer (Grand.best_any net) = inr r1 /\ answer (Grand.best_grand net) = inr r2 /\
  t = Nat.max (latency (Grand.best_any net)) (latency (Grand.best_grand net)).
Proof. unfold GrandRuns.fetched. rewrite Promise_all2_fulfilled. reflexivity. Qed.

Lemma delivered_some r d :
  delivered r = Some d <->
  exists res, answer r = inr res /\ ok res = true /\ answer (body res) = inr d.
Proof.
  unfold delivered. destruct (answer r) as [e|res].
  - split; [discriminate | intros (res & H & _); discriminate].
  - split.
    + destruct (ok res) eqn:Hok; [|discriminate].
      destruct (answer (body res)) as [e|d'] eqn:Hb; [discriminate|].
      intros H; inversion H; subst. eauto.
    + intros (res' & H & Hok & Hb). inversion H; subst res'. rewrite Hok, Hb. reflexivity.
Qed.

Lemma delivered_of r res d :
  answer r = inr res -> ok res = true -> answer (body res) = inr d -> delivered r = Some d.
Proof. intros. apply delivered_some. eauto. Qed.

Lemma delivered_rejected r e : answer r = inl e -> delivered r = None.
Proof. unfold delivered. intros ->. reflexivity. Qed.

Lemma delivered_not_ok r res : answer r = inr res -> ok res = false -> delivered r = None.
Proof. unfold delivered. intros -> ->. reflexivity. Qed.

Lemma delivered_unparsed r res e :
  answer r = inr res -> answer (body res) = inl e -> delivered r = None.
Proof. unfold delivered. intros -> ->. destruct (ok res); reflexivity. Qed.

Lemma not_ok_cases r1 r2 :
  negb (ok r1) || negb (ok r2) = true -> ok r1 = false \/ ok r2 = false.
Proof. destruct (ok r1), (ok r2); cbn; auto. Qed.

Lemma both_ok r1 r2 :
  negb (ok r1) || negb (ok r2) = false -> ok r1 = true /\ ok r2 = true.
Proof. destruct (ok r1), (ok r2); cbn; auto; discriminate. Qed.

End GrandPaths.

Section FinalStates.
Import JS Async Activations Observations.

Lemma History_outcome_failed js net :
  delivered (History.best_any net) = None \/ delivered (History.best_grand net) = None \/
  delivered (History.history net) = None ->
  History_outcome js net
  = History.mkState (JArr []) (JArr []) None false (Some History.unavailable).
Proof.
  unfold History_outcome.
  intros [H|[H|H]]; rewrite H;
    repeat match goal with |- context [match delivered ?r with _ => _ end] =>
      destruct (delivered r) end; reflexivity.
Qed.

Lemma History_final_eq (js : Engine) (net : History.Network) :
  History.final js net = History_outcome js net.
Proof.
  unfold History.final.
  destruct (History_activation_path js net) as
    [t e HP | t r1 r2 r3 HP Hok | t r1 r2 r3 t' e HP Hok HQ
     | t r1 r2 r3 t' d1 d2 d3 HP Hok HQ Hd | t r1 r2 r3 t' d1 d2 d3 o HP Hok HQ Hd];
    cbn [effects];
    rewrite ?History_after_failure, ?History_after_partial, ?History_after_loaded.
  - symmetry. apply History_outcome_failed.
    apply Promise_all3_rejected_earliest in HP. rewrite !sent_result in HP.
    destruct HP as ([(H & _)|[(H & _)|(H & _)]] & _); eauto using delivered_rejected.
  - symmetry. apply History_outcome_failed.
    apply History_fetched_fulfilled in HP. destruct HP as (A1 & A2 & A3 & _).
    unfold History.some_not_ok in Hok.
    destruct (ok r1) eqn:K1; [|eauto using delivered_not_ok].
    destruct (ok r2) eqn:K2; [|eauto using delivered_not_ok].
    destruct (ok r3) eqn:K3; [discriminate|eauto using delivered_not_ok].
  - symmetry. apply History_outcome_failed.
    apply History_fetched_fulfilled in HP. destruct HP as (A1 & A2 & A3 & _).
    apply Promise_all3_rejected_earliest in HQ. rewrite !sent_result in HQ.
    destruct HQ as ([(H & _)|[(H & _)|(H & _)]] & _); eauto using delivered_unparsed.
  - apply History_fetched_fulfilled in HP. destruct HP as (A1 & A2 & A3 & _).
    apply History_parsed_fulfilled in HQ. destruct HQ as (B1 & B2 & B3 & _).
    apply some_not_ok_false in Hok. destruct Hok as (K1 & K2 & K3).
    unfold History_outcome.
    rewrite (delivered_of _ _ _ A1 K1 B1), (delivered_of _ _ _ A2 K2 B2),
      (delivered_of _ _ _ A3 K3 B3), Hd. reflexivity.
  - apply History_fetched_fulfilled in HP. destruct HP as (A1 & A2 & A3 & _).
    apply History_parsed_fulfilled in HQ. destruct HQ as (B1 & B2 & B3 & _).
    apply some_not_ok_false in Hok. destruct Hok as (K1 & K2 & K3).
    unfold History_outcome.
    rewrite (delivered_of _ _ _ A1 K1 B1), (delivered_of _ _ _ A2 K2 B2),
      (delivered_of _ _ _ A3 K3 B3), Hd. reflexivity.
Qed.

(** X1.  The final state of App.js is a function of the three answers
    alone, whatever their latencies: when the three bodies are delivered
    (fetch fulfilled, status 200..299, body parsed) it holds the first two
    bodies, with the Date read off the third or, when reading it throws,
    with the error message; in every other case no slot but [error] and
    [loading] has changed. *)
Theorem History_final_is_outcome (js : Engine) (net : History.Network) :
  History.final js net = History_outcome js net.
Proof. exact (History_final_eq js net). Qed.

Lemma Recommendation_final_eq (net : Recommendation.Network) :
  Recommendation.final net = Recommendation_outcome net.
Proof.
  unfold Recommendation.final, Recommendation_outcome.
  destruct (Recommendation_activation_path net) as
    [t e HP | t r1 r2 HP Hok | t r1 r2 e HP Hok H1 t1
     | t r1 r2 d1 e HP Hok H1 H2 t1 t2 | t r1 r2 d1 d2 HP Hok H1 H2 t1 t2];
    cbn [effects]; rewrite ?Recommendation_after_failure, ?Recommendation_after_loaded.
  - apply Promise_all2_rejected_earliest in HP. rewrite !sent_result in HP.
    destruct HP as ([(H & _)|(H & _)] & _); rewrite (delivered_rejected _ _ H);
      try destruct (delivered _); reflexivity.
  - apply Recommendation_fetched_fulfilled in HP. destruct HP as (A1 & A2 & _).
    destruct (not_ok_cases _ _ Hok) as [K|K];
      [rewrite (delivered_not_ok _ _ A1 K) | rewrite (delivered_not_ok _ _ A2 K)];
      try destruct (delivered _); reflexivity.
  - apply Recommendation_fetched_fulfilled in HP. destruct HP as (A1 & A2 & _).
    rewrite (delivered_unparsed _ _ _ A1 H1). reflexivity.
  - apply Recommendation_fetched_fulfilled in HP. destruct HP as (A1 & A2 & _).
    rewrite (delivered_unparsed _ _ _ A2 H2). destruct (delivered _); reflexivity.
  - apply Recommendation_fetched_fulfilled in HP. destruct HP as (A1 & A2 & _).
    destruct (both_ok _ _ Hok) as (K1 & K2).
    rewrite (delivered_of _ _ _ A1 K1 H1), (delivered_of _ _ _ A2 K2 H2). reflexivity.
Qed.

(** X2.  part_000 is all or nothing: the final state holds both parsed
    bodies and no error when both endpoints deliver, and otherwise the
    initial [games] and [best] with the error message; the latencies play
    no part. *)
Theorem Recommendation_final_is_outcome (net : Recommendation.Network) :
  Recommendation.final net = Recommendation_outcome net.
Proof. exact (Recommendation_final_eq net). Qed.

Lemma Grand_after_failure t e :
  Grand.after (GrandRuns.issue ++ GrandRuns.failure t e)
  = Grand.mkState (JArr []) (JArr []) false (Some Grand.unavailable).
Proof. reflexivity. Qed.

Lemma Grand_after_loaded t d1 d2 :
  Grand.after (GrandRuns.issue ++ [(t, SetState (Grand.setBestAny d1));
                                   (t, SetState (Grand.setBestGrand d2));
                                   (t, SetState (Grand.setLoading false))])
  = Grand.mkState d1 d2 false None.
Proof. reflexivity. Qed.

(** X3.  part_001 is all or nothing in the same way: both parsed bodies
    and no error when both endpoints deliver, the initial empty lists and
    the error message otherwise; and [App] shows the data view in the first
    case and the error view with the message in the second. *)
Theorem Grand_final_is_outcome (js : Engine) (net : Grand.Network) :
  Grand.final net = Grand_outcome net /\
  Grand.App js (Grand.final net)
  = match delivered (Grand.best_any net), delivered (Grand.best_grand net) with
    | Some _, Some _ => Grand.DataView (Grand.page js (Grand.final net))
    | _, _ => Grand.ErrorView Grand.unavailable
    end.
Proof.
  unfold Grand.final, Grand_outcome.
  destruct (Grand_activation_path net) as
    [t e HP | t r1 r2 HP Hok | t r1 r2 e HP Hok H1 t1
     | t r1 r2 d1 e HP Hok H1 H2 t2 | t r1 r2 d1 d2 HP Hok H1 H2 t2];
    cbn [effects]; rewrite ?Grand_after_failure, ?Grand_after_loaded.
  - apply Promise_all2_rejected_earliest in HP. rewrite !sent_result in HP.
    destruct HP as ([(H & _)|(H & _)] & _); rewrite (delivered_rejected _ _ H);
      try destruct (delivered _); split; reflexivity.
  - apply Grand_fetched_fulfilled in HP. destruct HP as (A1 & A2 & _).
    destruct (not_ok_cases _ _ Hok) as [K|K];
      [rewrite (delivered_not_ok _ _ A1 K) | rewrite (delivered_not_ok _ _ A2 K)];
      try destruct (delivered _); split; reflexivity.
  - apply Grand_fetched_fulfilled in HP. destruct HP as (A1 & A2 & _).
    rewrite (delivered_unparsed _ _ _ A1 H1). split; reflexivity.
  - apply Grand_fetched_fulfilled in HP. destruct HP as (A1 & A2 & _).
    rewrite (delivered_unparsed _ _ _ A2 H2). destruct (delivered _); split; reflexivity.
  - apply Grand_fetched_fulfilled in HP. destruct HP as (A1 & A2 & _).
    destruct (both_ok _ _ Hok) as (K1 & K2).
    rewrite (delivered_of _ _ _ A1 K1 H1), (delivered_of _ _ _ A2 K2 H2). split; reflexivity.
Qed.

End FinalStates.

Section EffectDiscipline.
Import JS Async Activations Observations.

Ltac history_paths js net :=
  destruct (History_activation_path js net) as
    [t e HP | t r1 r2 r3 HP Hok | t r1 r2 r3 t' e HP Hok HQ
     | t r1 r2 r3 t' d1 d2 d3 HP Hok HQ Hd | t r1 r2 r3 t' d1 d2 d3 [d|] HP Hok HQ Hd].

Ltac recommendation_paths net :=
  destruct (Recommendation_activation_path net) as
    [t e HP | t r1 r2 HP Hok | t r1 r2 e HP Hok H1 t1
     | t r1 r2 d1 e HP Hok H1 H2 t1 t2 | t r1 r2 d1 d2 HP Hok H1 H2 t1 t2].

Ltac grand_paths net :=
  destruct (Grand_activation_path net) as
    [t e HP | t r1 r2 HP Hok | t r1 r2 e HP Hok H1 t1
     | t r1 r2 d1 e HP Hok H1 H2 t2 | t r1 r2 d1 d2 HP Hok H1 H2 t2].

(** X4.  One batch of requests per activation, in all three components:
    the requests of a run are exactly the configured endpoints, each
    fetched once, at the instant of activation and in source order; nothing
    is fetched again after a failure. *)
Theorem one_batch_of_requests (js : Engine) (net : History.Network)
    (net' : Recommendation.Network) (net'' : Grand.Network) :
  filter is_fetch (effects (History.activation js net)) = History.issue /\
  filter is_fetch (effects (Recommendation.activation net')) = Recommendation.issue /\
  filter is_fetch (effects (Grand.activation net'')) = GrandRuns.issue.
Proof.
  split; [|split].
  - history_paths js net; reflexivity.
  - recommendation_paths net'; reflexivity.
  - grand_paths net''; reflexivity.
Qed.

Ltac distinct_slots :=
  cbn; repeat (constructor; [cbn; intuition discriminate|]); constructor.

(** X5.  No state slot is written twice: in every activation of each of
    the three components every setter is called at most once, so an
    activation causes at most five (App.js) or four (part_000, part_001)
    state updates. *)
Theorem each_setter_at_most_once (js : Engine) (net : History.Network)
    (net' : Recommendation.Network) (net'' : Grand.Network) :
  NoDup (map History_slot (calls (effects (History.activation js net)))) /\
  NoDup (map Recommendation_slot (calls (effects (Recommendation.activation net')))) /\
  NoDup (map Grand_slot (calls (effects (Grand.activation net'')))).
Proof.
  split; [|split].
  - history_paths js net; distinct_slots.
  - recommendation_paths net'; distinct_slots.
  - grand_paths net''; distinct_slots.
Qed.

(** X6.  The console is written to exactly when the activation fails: a
    run logs one error when it ends with the error slot set and nothing
    when it ends without, in all three components. *)
Theorem one_log_per_failure (js : Engine) (net : History.Network)
    (net' : Recommendation.Network) (net'' : Grand.Network) :
  List.length (filter is_log (effects (History.activation js net)))
    = match History.error (History.final js net) with Some _ => 1 | None => 0 end /\
  List.length (filter is_log (effects (Recommendation.activation net')))
    = match Recommendation.error (Recommendation.final net') with Some _ => 1 | None => 0 end /\
  List.length (filter is_log (effects (Grand.activation net'')))
    = match Grand.error (Grand.final net'') with Some _ => 1 | None => 0 end.
Proof.
  split; [|split].
  - unfold History.final. history_paths js net; reflexivity.
  - unfold Recommendation.final. recommendation_paths net'; reflexivity.
  - unfold Grand.final. grand_paths net''; reflexivity.
Qed.

End EffectDiscipline.

Section Timing.
Import JS Async Activations Observations.

Lemma History_fetched_of net r1 r2 r3 :
  answer (History.best_any net) = inr r1 -> answer (History.best_grand net) = inr r2 ->
  answer (History.history net) = inr r3 ->
  History.fetched net
  = mkPromise (Nat.max (latency (History.best_any net))
                 (Nat.max (latency (History.best_grand net)) (latency (History.history net))))
              (inr (r1, (r2, r3))).
Proof. intros. apply History_fetched_fulfilled. auto. Qed.

(** X7.  App.js checks the statuses before it reads any body: when the
    three fetches are fulfilled and one status is outside 200..299, the run
    is the three requests followed, at the instant the last response
    arrived, by the log of [Error("Backend request failed")], [setError]
    and [setLoading(false)]; no body latency delays it. *)
Theorem bad_status_skips_the_bodies (js : Engine) (net : History.Network)
    (r1 r2 r3 : Response) :
  answer (History.best_any net) = inr r1 -> answer (History.best_grand net) = inr r2 ->
  answer (History.history net) = inr r3 ->
  History.some_not_ok r1 r2 r3 = true ->
  let T := Nat.max (latency (History.best_any net))
             (Nat.max (latency (History.best_grand net)) (latency (History.history net))) in
  History.activation js net
  = mkRun (inr tt) T
      (History.issue ++ History.failure T (Error "Backend request failed"))%list.
Proof.
  intros A1 A2 A3 Hbad T.
  pose proof (History_fetched_of net r1 r2 r3 A1 A2 A3) as F. fold T in F.
  destruct (History_activation_path js net) as
    [t e HP | t q1 q2 q3 HP Hok | t q1 q2 q3 t' e HP Hok HQ
     | t q1 q2 q3 t' d1 d2 d3 HP Hok HQ Hd | t q1 q2 q3 t' d1 d2 d3 o HP Hok HQ Hd];
    rewrite F in HP; inversion HP; subst; try congruence; reflexivity.
Qed.

Lemma bad_status_skips_the_bodies_witness :
  History.activation example_engine grand_500
  = mkRun (inr tt) 5 (History.issue ++ History.failure 5 (Error "Backend request failed"))%list.
Proof.
  apply (bad_status_skips_the_bodies example_engine grand_500 _ _ _ eq_refl eq_refl eq_refl).
  reflexivity.
Defined.

(** X8.  App.js reads the three bodies in parallel: when the three
    endpoints deliver, the run ends (successfully or with the TypeError of
    the history step) at the arrival of the last response plus the longest
    of the three body latencies, and every setter call and log happens at
    that instant. *)
Theorem bodies_are_read_in_parallel (js : Engine) (net : History.Network)
    (r1 r2 r3 : Response) (d1 d2 d3 : json) :
  answer (History.best_any net) = inr r1 -> answer (History.best_grand net) = inr r2 ->
  answer (History.history net) = inr r3 ->
  History.some_not_ok r1 r2 r3 = false ->
  answer (body r1) = inr d1 -> answer (body r2) = inr d2 -> answer (body r3) = inr d3 ->
  let T := Nat.max (latency (History.best_any net))
             (Nat.max (latency (History.best_grand net)) (latency (History.history net)))
           + Nat.max (latency (body r1)) (Nat.max (latency (body r2)) (latency (body r3))) in
  clock (History.activation js net) = T /\
  forall te, In te (effects (History.activation js net)) -> is_fetch te = false -> fst te = T.
Proof.
  intros A1 A2 A3 Hok' B1 B2 B3 T.
  pose proof (History_fetched_of net r1 r2 r3 A1 A2 A3) as F.
  assert (Q : forall t, History.parsed t r1 r2 r3
            = mkPromise (Nat.max (t + latency (body r1))
                           (Nat.max (t + latency (body r2)) (t + latency (body r3))))
                        (inr (d1, (d2, d3))))
    by (intros t; apply History_parsed_fulfilled; auto).
  destruct (History_activation_path js net) as
    [t e HP | t q1 q2 q3 HP Hok | t q1 q2 q3 t' e HP Hok HQ
     | t q1 q2 q3 t' e1 e2 e3 HP Hok HQ Hd | t q1 q2 q3 t' e1 e2 e3 o HP Hok HQ Hd];
    rewrite F in HP; inversion HP; subst q1 q2 q3; try congruence;
    rewrite Q in HQ; inversion HQ; subst; cbn [clock effects].
  all: assert (HT : Nat.max
         (Nat.max (latency (History.best_any net))
            (Nat.max (latency (History.best_grand net)) (latency (History.history net))))
         (Nat.max
            (Nat.max (latency (History.best_any net))
               (Nat.max (latency (History.best_grand net)) (latency (History.history net)))
             + latency (body r1))
            (Nat.max
               (Nat.max (latency (History.best_any net))
                  (Nat.max (latency (History.best_grand net)) (latency (History.history net)))
                + latency (body r2))
               (Nat.max (latency (History.best_any net))
                  (Nat.max (latency (History.best_grand net)) (latency (History.history net)))
                + latency (body r3)))) = T) by (subst T; lia).
  all: rewrite HT; split; [reflexivity|].
  all: intros te Hin Hnf; try destruct o;
    unfold History.issue, History.failure, History.date_effect in Hin; cbn [app In] in Hin;
    repeat match goal with H : _ \/ _ |- _ => destruct H | H : False |- _ => destruct H end;
    subst te; try discriminate; reflexivity.
Qed.

Lemma bodies_are_read_in_parallel_witness :
  clock (History.activation example_engine healthy) = 5 + 9.
Proof.
  refine (proj1 (bodies_are_read_in_parallel example_engine healthy _ _ _ _ _ _
                   eq_refl eq_refl eq_refl _ eq_refl eq_refl eq_refl)).
  reflexivity.
Defined.

Lemma Recommendation_fetched_of net r1 r2 :
  answer (Recommendation.best_any net) = inr r1 ->
  answer (Recommendation.recommendation net) = inr r2 ->
  Recommendation.fetched net
  = mkPromise (Nat.max (latency (Recommendation.best_any net))
                       (latency (Recommendation.recommendation net))) (inr (r1, r2)).
Proof. intros. apply Recommendation_fetched_fulfilled. auto. Qed.

Lemma Grand_fetched_of net r1 r2 :
  answer (Grand.best_any net) = inr r1 -> answer (Grand.best_grand net) = inr r2 ->
  GrandRuns.fetched net
  = mkPromise (Nat.max (latency (Grand.best_any net)) (latency (Grand.best_grand net)))
              (inr (r1, r2)).
Proof. intros. apply Grand_fetched_fulfilled. auto. Qed.

Lemma resumed_sent t {A : Type} (r : Reply A) :
  Recommendation.resumed t (sent r t) = t + latency r.
Proof. unfold Recommendation.resumed, sent. cbn [settled_at]. lia. Qed.

(** X9.  part_000 and part_001 read the two bodies one after the other:
    when both statuses are in 200..299 the second body is asked for only
    once the first has been parsed, so a successful run ends at the arrival
    of the last response plus the sum of the two body latencies; and when
    the first body cannot be read the run fails without waiting for the
    second. *)
Theorem bodies_are_read_in_sequence (net : Recommendation.Network) (net' : Grand.Network)
    (r1 r2 : Response) :
  negb (ok r1) || negb (ok r2) = false ->
  (answer (Recommendation.best_any net) = inr r1 ->
   answer (Recommendation.recommendation net) = inr r2 ->
   let t := Nat.max (latency (Recommendation.best_any net))
                    (latency (Recommendation.recommendation net)) in
   clock (Recommendation.activation net)
   = match answer (body r1) with
     | inl _ => t + latency (body r1)
     | inr _ => t + latency (body r1) + latency (body r2)
     end) /\
  (answer (Grand.best_any net') = inr r1 ->
   answer (Grand.best_grand net') = inr r2 ->
   let t := Nat.max (latency (Grand.best_any net')) (latency (Grand.best_grand net')) in
   clock (Grand.activation net')
   = match answer (body r1) with
     | inl _ => t + latency (body r1)
     | inr _ => t + latency (body r1) + latency (body r2)
     end).
Proof.
  intros Hok'. split; intros A1 A2 t0.
  - pose proof (Recommendation_fetched_of net r1 r2 A1 A2) as F.
    destruct (Recommendation_activation_path net) as
      [t e HP | t q1 q2 HP Hok | t q1 q2 e HP Hok H1 t1
       | t q1 q2 d1 e HP Hok H1 H2 t1 t2 | t q1 q2 d1 d2 HP Hok H1 H2 t1 t2];
      rewrite F in HP; inversion HP; subst q1 q2; try congruence; cbn [clock].
    + subst t1. rewrite H1, resumed_sent. subst. reflexivity.
    + subst t2 t1. rewrite H1, !resumed_sent. subst. reflexivity.
    + subst t2 t1. rewrite H1, !resumed_sent. subst. reflexivity.
  - pose proof (Grand_fetched_of net' r1 r2 A1 A2) as F.
    destruct (Grand_activation_path net') as
      [t e HP | t q1 q2 HP Hok | t q1 q2 e HP Hok H1 t1
       | t q1 q2 d1 e HP Hok H1 H2 t2 | t q1 q2 d1 d2 HP Hok H1 H2 t2];
      rewrite F in HP; inversion HP; subst q1 q2; try congruence; cbn [clock].
    + subst t1. rewrite H1. subst. reflexivity.
    + subst t2. rewrite H1. subst. reflexivity.
    + subst t2. rewrite H1. subst. reflexivity.
Qed.

Lemma bodies_are_read_in_sequence_witness :
  clock (Recommendation.activation no_recommendation) = 5 + 1 + 2 /\
  clock (Grand.activation grand_healthy) = 5 + 4 + 2.
Proof.
  split.
  - exact (proj1 (bodies_are_read_in_sequence no_recommendation grand_healthy
                    (mkResponse 200 (mkReply 1 (inr (JArr [cash_blast]))))
                    (mkResponse 200 (mkReply 2 (inr JNull))) eq_refl) eq_refl eq_refl).
  - exact (proj2 (bodies_are_read_in_sequence no_recommendation grand_healthy
                    (mkResponse 200 (mkReply 4 (inr (JArr [cash_blast]))))
                    (mkResponse 200 (mkReply 2 (inr (JArr [])))) eq_refl) eq_refl eq_refl).
Defined.

End Timing.

Section HistoryBodies.
Import JS Async Activations Observations.

Lemma History_final_delivered js net d1 d2 d3 :
  delivered (History.best_any net) = Some d1 -> delivered (History.best_grand net) = Some d2 ->
  delivered (History.history net) = Some d3 ->
  History.final js net
  = match History.latest_date js d3 with
    | Some o => History.mkState d1 d2 o false None
    | None => History.mkState d1 d2 None false (Some History.unavailable)
    end.
Proof.
  intros H1 H2 H3. rewrite History_final_eq. unfold History_outcome.
  rewrite H1, H2, H3. reflexivity.
Qed.

Lemma delivered_json_reply status l1 l2 d :
  ok (mkResponse status (mkReply l2 (inr d))) = true ->
  delivered (json_reply status l1 l2 d) = Some d.
Proof. intros H. unfold delivered, json_reply. cbn [answer body]. rewrite H. reflexivity. Qed.

(** X10.  A history whose final element is [null] fails the activation of
    App.js after the two tables have been written, whatever stands before
    that element: reading [.timestamp] of [null] throws. *)
Theorem history_ending_in_null_fails (js : Engine) (net : History.Network)
    (d1 d2 : json) (pre : list json) :
  delivered (History.best_any net) = Some d1 -> delivered (History.best_grand net) = Some d2 ->
  delivered (History.history net) = Some (JArr (pre ++ [JNull])) ->
  History.final js net = History.mkState d1 d2 None false (Some History.unavailable) /\
  History.App js (History.final js net) = History.ErrorView History.unavailable.
Proof.
  intros H1 H2 H3. rewrite (History_final_delivered js net _ _ _ H1 H2 H3).
  rewrite latest_date_last. split; reflexivity.
Qed.

Lemma history_ending_in_null_fails_witness :
  History.App example_engine
    (History.final example_engine
       (History.mkNetwork (json_reply 200 1 1 (JArr [])) (json_reply 200 1 1 (JArr []))
          (json_reply 200 1 1 (JArr [stamp "2025-01-01T00:00:00"; JNull]))))
  = History.ErrorView History.unavailable.
Proof.
  apply (history_ending_in_null_fails example_engine _ (JArr []) (JArr [])
           [stamp "2025-01-01T00:00:00"]); reflexivity.
Defined.

(** X11.  A history whose final element has no [timestamp] to read (an
    object without that member, a scalar or an array) does not fail the
    activation: App.js ends Ready with lastUpdated holding
    [new Date(undefined)]. *)
Theorem history_without_timestamp_is_ready (js : Engine) (net : History.Network)
    (d1 d2 : json) (pre : list json) (e : json) :
  delivered (History.best_any net) = Some d1 -> delivered (History.best_grand net) = Some d2 ->
  delivered (History.history net) = Some (JArr (pre ++ [e])) ->
  field (Some e) Field.timestamp = Some undefined ->
  History.final js net = History.mkState d1 d2 (Some (NewDate undefined)) false None /\
  History.App js (History.final js net)
  = History.DataView (History.page js (History.final js net)).
Proof.
  intros H1 H2 H3 Hf. rewrite (History_final_delivered js net _ _ _ H1 H2 H3).
  rewrite latest_date_last, Hf. split; reflexivity.
Qed.

Lemma history_without_timestamp_is_ready_witness :
  History.lastUpdated
    (History.final example_engine
       (History.mkNetwork (json_reply 200 1 1 (JArr [])) (json_reply 200 1 1 (JArr []))
          (json_reply 200 1 1 (JArr [JObj [("time", JStr "2025-01-01T00:00:00")]]))))
  = Some (NewDate undefined).
Proof.
  refine (f_equal History.lastUpdated
    (proj1 (history_without_timestamp_is_ready example_engine _ (JArr []) (JArr []) []
              (JObj [("time", JStr "2025-01-01T00:00:00")]) _ _ _ _))); reflexivity.
Defined.

(** X12.  A history body that is a boolean, a number or a string never
    fails the activation of App.js.  Booleans, numbers and the empty string
    leave lastUpdated null; a non-empty string has a positive length and
    its last character has no [timestamp], so lastUpdated becomes
    [new Date(undefined)]. *)
Theorem scalar_history_is_accepted (js : Engine) (net : History.Network) (d1 d2 d3 : json) :
  delivered (History.best_any net) = Some d1 -> delivered (History.best_grand net) = Some d2 ->
  delivered (History.history net) = Some d3 ->
  scalar d3 = true ->
  History.final js net
  = History.mkState d1 d2
      (match d3 with
       | JStr s => if String.eqb s "" then None else Some (NewDate undefined)
       | _ => None
       end) false None.
Proof.
  intros H1 H2 H3 Hs. rewrite (History_final_delivered js net _ _ _ H1 H2 H3).
  destruct d3 as [|b|x|s|items|props]; try discriminate; try reflexivity.
  destruct s as [|c s]; reflexivity.
Qed.

Lemma scalar_history_is_accepted_witness :
  History.final example_engine
    (History.mkNetwork (json_reply 200 1 1 (JArr [])) (json_reply 200 1 1 (JArr []))
       (json_reply 200 1 1 (JStr "maintenance")))
  = History.mkState (JArr []) (JArr []) (Some (NewDate undefined)) false None.
Proof.
  apply (scalar_history_is_accepted example_engine _ (JArr []) (JArr []) (JStr "maintenance"));
    reflexivity.
Defined.

(** X13.  Of a history sequence App.js looks at the final element only: two
    activations that deliver the same tables and histories with the same
    final element end in the same state, whatever the earlier elements and
    the latencies are. *)
Theorem only_the_final_element_counts (js : Engine) (net net' : History.Network)
    (d1 d2 : json) (pre pre' : list json) (e : json) :
  delivered (History.best_any net) = Some d1 -> delivered (History.best_grand net) = Some d2 ->
  delivered (History.history net) = Some (JArr (pre ++ [e])) ->
  delivered (History.best_any net') = Some d1 -> delivered (History.best_grand net') = Some d2 ->
  delivered (History.history net') = Some (JArr (pre' ++ [e])) ->
  History.final js net = History.final js net'.
Proof.
  intros H1 H2 H3 H1' H2' H3'.
  rewrite (History_final_delivered js net _ _ _ H1 H2 H3),
    (History_final_delivered js net' _ _ _ H1' H2' H3'), !latest_date_last. reflexivity.
Qed.

Lemma only_the_final_element_counts_witness :
  History.final example_engine healthy
  = History.final example_engine
      (History.mkNetwork (json_reply 200 7 7 (JArr [])) (json_reply 200 1 1 (JArr []))
         (json_reply 200 2 2 (JArr [JNull; JBool true; stamp "2025-01-02T00:00:00"]))).
Proof.
  apply (only_the_final_element_counts example_engine healthy _ (JArr []) (JArr [])
           [stamp "2025-01-01T00:00:00"] [JNull; JBool true] (stamp "2025-01-02T00:00:00"));
    reflexivity.
Defined.

End HistoryBodies.

Section Rendering.
Import JS Async Activations Observations.

Lemma sequence_Forall2 {A B : Type} (f : A -> option B) (items : list A) (rows : list B) :
  sequence (map f items) = Some rows <-> Forall2 (fun g r => f g = Some r) items rows.
Proof.
  revert rows. induction items as [|g items IH]; intros rows; cbn [map sequence].
  - split; [intros H; inversion H; constructor | intros H; inversion H; reflexivity].
  - destruct (f g) as [r|] eqn:Hg.
    + destruct (sequence (map f items)) as [rs|] eqn:Hs; cbn [option_map].
      * split.
        -- intros H; inversion H; subst. constructor; [exact Hg | apply IH; reflexivity].
        -- intros H; inversion H as [|? r' ? rs' Hr Hrs]; subst.
           apply IH in Hrs. congruence.
      * split; [discriminate|].
        intros H; inversion H as [|? r' ? rs' Hr Hrs]; subst.
        apply IH in Hrs. discriminate.
    + split; [discriminate|].
      intros H; inversion H as [|? r' ? rs' Hr Hrs]; subst. congruence.
Qed.

Lemma sequence_throws {A B : Type} (f : A -> option B) (items : list A) (g : A) :
  In g items -> f g = None -> sequence (map f items) = None.
Proof.
  intros Hin Hg. destruct (sequence (map f items)) as [rows|] eqn:Hs; [|reflexivity].
  apply sequence_Forall2 in Hs. exfalso.
  induction Hs as [|g' r items' rows' Hr Hrest IH]; [destruct Hin|].
  destruct Hin as [->|Hin]; [congruence | auto].
Qed.

Lemma array_map_Forall2 {B : Type} (f : json -> option B) (xs : json) (rows : list B) :
  array_map f xs = Some rows <->
  exists items, xs = JArr items /\ Forall2 (fun g r => f g = Some r) items rows.
Proof.
  unfold array_map. destruct xs as [|b|x|s|items|props];
    try (split; [discriminate | intros (items' & H & _); discriminate]).
  rewrite sequence_Forall2. split.
  - intros H. exists items. auto.
  - intros (items' & H & HF). inversion H; subst. exact HF.
Qed.

Lemma History_page_rows js st pg :
  History.page js st = Some pg <->
  exists items1 items2,
    History.bestAny st = JArr items1 /\ History.bestGrand st = JArr items2 /\
    Forall2 (fun g r => Tables.any_row js g = Some r) items1 (History.any_rows pg) /\
    Forall2 (fun g r => Tables.grand_row g = Some r) items2 (History.grand_rows pg) /\
    History.updated pg = History.lastUpdated st.
Proof.
  unfold History.page, bind_opt. split.
  - destruct (array_map (Tables.any_row js) (History.bestAny st)) as [rows1|] eqn:H1;
      [|discriminate].
    destruct (array_map Tables.grand_row (History.bestGrand st)) as [rows2|] eqn:H2;
      [|discriminate].
    intros H; inversion H; subst pg. cbn.
    apply array_map_Forall2 in H1. destruct H1 as (items1 & E1 & F1).
    apply array_map_Forall2 in H2. destruct H2 as (items2 & E2 & F2).
    exists items1, items2. auto.
  - intros (items1 & items2 & E1 & E2 & F1 & F2 & U).
    assert (H1 : array_map (Tables.any_row js) (History.bestAny st) = Some (History.any_rows pg))
      by (apply array_map_Forall2; eauto).
    assert (H2 : array_map Tables.grand_row (History.bestGrand st) = Some (History.grand_rows pg))
      by (apply array_map_Forall2; eauto).
    rewrite H1, H2, <- U. destruct pg; reflexivity.
Qed.



(** X15.  A successful activation of App.js whose /best_any or /best_grand
    body is valid JSON but not an array ends Ready, with the body in its
    slot, and [App] then throws while building the page: only an array has
    a [map]. *)
Theorem non_array_table_breaks_the_page (js : Engine) (net : History.Network)
    (d1 d2 d3 : json) (o : option Date) :
  delivered (History.best_any net) = Some d1 -> delivered (History.best_grand net) = Some d2 ->
  delivered (History.history net) = Some d3 ->
  History.latest_date js d3 = Some o ->
  (forall items, d1 <> JArr items) \/ (forall items, d2 <> JArr items) ->
  History.final js net = History.mkState d1 d2 o false None /\
  History.App js (History.final js net) = History.DataView None.
Proof.
  intros H1 H2 H3 Hd Hna.
  rewrite (History_final_delivered js net _ _ _ H1 H2 H3), Hd.
  split; [reflexivity|].
  unfold History.App. cbn [History.loading History.error]. f_equal.
  destruct (History.page js (History.mkState d1 d2 o false None)) as [pg|] eqn:Hp;
    [|reflexivity].
  apply History_page_rows in Hp. cbn in Hp.
  destruct Hp as (items1 & items2 & E1 & E2 & _).
  destruct Hna as [H|H]; [destruct (H _ E1) | destruct (H _ E2)].
Qed.

Lemma non_array_table_breaks_the_page_witness :
  History.App example_engine
    (History.final example_engine
       (History.mkNetwork (json_reply 200 1 1 (JObj [("games", JArr [])]))
          (json_reply 200 1 1 (JArr [])) (json_reply 200 1 1 (JArr []))))
  = History.DataView None.
Proof.
  refine (proj2 (non_array_table_breaks_the_page example_engine _
            (JObj [("games", JArr [])]) (JArr []) (JArr []) None _ _ _ _ _));
    try reflexivity.
  left. intros items. discriminate.
Defined.

Lemma any_row_needs_counts js g :
  g = JNull \/
  (exists props, g = JObj props /\
     (own props "remaining_prizes" = None \/ own props "remaining_prizes" = Some JNull \/
      own props "total_prizes" = None \/ own props "total_prizes" = Some JNull)) ->
  Tables.any_row js g = None.
Proof.
  intros [->|(props & -> & H)]; [reflexivity|].
  unfold Tables.any_row, bind_opt, field. cbn [Field.key].
  destruct H as [H|[H|[H|H]]].
  - rewrite H. reflexivity.
  - rewrite H. reflexivity.
  - destruct (toLocaleString (own props "remaining_prizes")); [|reflexivity].
    rewrite H. reflexivity.
  - destruct (toLocaleString (own props "remaining_prizes")); [|reflexivity].
    rewrite H. reflexivity.
Qed.

(** X16.  In App.js and part_001 one bad ticket takes the whole page down:
    when the bestAny array contains [null], or a ticket whose
    [remaining_prizes] or [total_prizes] is missing or [null], calling
    [toLocaleString] on it throws and no page is built, whatever the other
    tickets are. *)
Theorem ticket_without_counts_breaks_the_page (js : Engine)
    (st : History.State) (st' : Grand.State) (items : list json) (g : json) :
  In g items ->
  g = JNull \/
  (exists props, g = JObj props /\
     (own props "remaining_prizes" = None \/ own props "remaining_prizes" = Some JNull \/
      own props "total_prizes" = None \/ own props "total_prizes" = Some JNull)) ->
  (History.bestAny st = JArr items -> History.page js st = None) /\
  (Grand.bestAny st' = JArr items -> Grand.page js st' = None).
Proof.
  intros Hin Hbad. apply (any_row_needs_counts js) in Hbad.
  pose proof (sequence_throws (Tables.any_row js) items g Hin Hbad) as Hs.
  split; intros E.
  - unfold History.page, array_map. rewrite E, Hs. reflexivity.
  - unfold Grand.page, array_map. rewrite E, Hs. reflexivity.
Qed.

Lemma ticket_without_counts_breaks_the_page_witness :
  History.page example_engine
    (History.mkState (JArr [cash_blast; no_remaining]) (JArr []) None false None) = None.
Proof.
  refine (proj1 (ticket_without_counts_breaks_the_page example_engine
            (History.mkState (JArr [cash_blast; no_remaining]) (JArr []) None false None)
            (Grand.mkState (JArr []) (JArr []) false None)
            [cash_blast; no_remaining] no_remaining _ _) eq_refl).
  - right. left. reflexivity.
  - right. eexists. split; [reflexivity|]. left. reflexivity.
Defined.

End Rendering.

Section Percent.
Import JS Async Activations Observations.













End Percent.

Section RecommendationPage.
Import JS Async Activations Observations.

Lemma Recommendation_final_delivered net gs b :
  delivered (Recommendation.best_any net) = Some gs ->
  delivered (Recommendation.recommendation net) = Some b ->
  Recommendation.final net = Recommendation.mkState gs b false None.
Proof.
  intros H1 H2. rewrite Recommendation_final_eq. unfold Recommendation_outcome.
  rewrite H1, H2. reflexivity.
Qed.

Lemma ToNumber_primitive js v : primitive v = true -> exists n, ToNumber js v = Some n.
Proof.
  destruct v as [[|[|]|x|s|items|props]|]; cbn; intros H; try discriminate; eauto.
Qed.

Lemma game_row_plain js g : plain_game g = true -> exists r, Recommendation.game_row js g = Some r.
Proof.
  destruct g as [|b|x|s|items|props]; try discriminate.
  cbn [plain_game]. rewrite andb_true_iff. intros (H1 & H2).
  destruct (ToNumber_primitive js _ H1) as (n1 & E1).
  destruct (ToNumber_primitive js _ H2) as (n2 & E2).
  unfold Recommendation.game_row, bind_opt, field. cbn [Field.key].
  rewrite E1, E2. eauto.
Qed.

Lemma sequence_total {A B : Type} (f : A -> option B) (items : list A) :
  (forall g, In g items -> exists r, f g = Some r) ->
  exists rows, sequence (map f items) = Some rows.
Proof.
  induction items as [|g items IH]; intros H; cbn [map sequence].
  - eauto.
  - destruct (H g (or_introl eq_refl)) as (r & ->).
    destruct IH as (rows & ->); [intros g' Hg'; apply H; right; exact Hg'|].
    cbn. eauto.
Qed.

(** X18.  The "All Games" table of part_000 puts up with incomplete
    records: when every game is an object whose [prize_amount] and
    [expected_value], if present, are not arrays or objects, every row is
    built and the table has one row per game; no member is required. *)
Theorem games_table_tolerates_missing_fields (js : Engine) (st : Recommendation.State)
    (items : list json) :
  Recommendation.games st = JArr items ->
  forallb plain_game items = true ->
  exists rows,
    array_map (Recommendation.game_row js) (Recommendation.games st) = Some rows /\
    List.length rows = List.length items /\
    (truthy (Some (Recommendation.best st)) = false ->
     Recommendation.page js st
     = Some (Recommendation.mkPage (Recommendation.NoCard (Recommendation.best st)) rows)).
Proof.
  intros E Hplain. rewrite forallb_forall in Hplain.
  destruct (sequence_total (Recommendation.game_row js) items) as (rows & Hrows).
  { intros g Hg. apply game_row_plain. auto. }
  exists rows. rewrite E. cbn [array_map]. split; [exact Hrows|]. split.
  - apply sequence_Forall2 in Hrows. symmetry. eapply Forall2_length. exact Hrows.
  - intros Hfalsy. unfold Recommendation.page, Recommendation.card_slot.
    rewrite Hfalsy, E. cbn [bind_opt array_map]. rewrite Hrows. reflexivity.
Qed.

Lemma games_table_tolerates_missing_fields_witness :
  exists rows,
    array_map (Recommendation.game_row example_engine) (JArr [JObj []; no_remaining])
      = Some rows /\ List.length rows = 2.
Proof.
  destruct (games_table_tolerates_missing_fields example_engine
              (Recommendation.mkState (JArr [JObj []; no_remaining]) JNull false None)
              [JObj []; no_remaining] eq_refl eq_refl) as (rows & H1 & H2 & _).
  exists rows. split; assumption.
Defined.

(** X19.  In part_000 the guard [best && ...] tests truthiness only: a
    successful activation whose recommendation body is falsy ([null],
    [false], [0] or the empty string) ends Ready with the card left out and
    the falsy value itself as the child; the table is built as usual. *)
Theorem falsy_recommendation_omits_card (js : Engine) (net : Recommendation.Network)
    (gs b : json) :
  delivered (Recommendation.best_any net) = Some gs ->
  delivered (Recommendation.recommendation net) = Some b ->
  truthy (Some b) = false ->
  Recommendation.App js (Recommendation.final net)
  = Recommendation.DataView
      (option_map (Recommendation.mkPage (Recommendation.NoCard b))
                  (array_map (Recommendation.game_row js) gs)).
Proof.
  intros H1 H2 Hf. rewrite (Recommendation_final_delivered net gs b H1 H2).
  unfold Recommendation.App, Recommendation.page, Recommendation.card_slot.
  cbn [Recommendation.loading Recommendation.error Recommendation.best Recommendation.games].
  rewrite Hf. cbn [bind_opt].
  destruct (array_map (Recommendation.game_row js) gs); reflexivity.
Qed.

Lemma falsy_recommendation_omits_card_witness :
  Recommendation.App example_engine
    (Recommendation.final
       (Recommendation.mkNetwork (json_reply 200 1 1 (JArr []))
          (json_reply 200 1 1 (JNum (of_Z 0)))))
  = Recommendation.DataView
      (Some (Recommendation.mkPage (Recommendation.NoCard (JNum (of_Z 0))) [])).
Proof.
  apply (falsy_recommendation_omits_card example_engine _ (JArr []) (JNum (of_Z 0)));
    reflexivity.
Defined.

(** X20.  In part_000 the optional chaining on [best.expected_value] guards
    a missing value, not a wrong type.  After a successful activation whose
    recommendation is an object: when [expected_value] is missing or
    [null] the card is shown with nothing after "Expected Value: $"; when
    it is present and neither [null] nor a number (a string such as "1.25",
    say), calling [toFixed] on it throws and no page is built, table
    included. *)
Theorem expected_value_must_be_a_number (js : Engine) (net : Recommendation.Network)
    (gs : json) (props : list (string * json)) :
  delivered (Recommendation.best_any net) = Some gs ->
  delivered (Recommendation.recommendation net) = Some (JObj props) ->
  Recommendation.App js (Recommendation.final net)
  = Recommendation.DataView
      match own props "expected_value" with
      | None | Some JNull =>
          option_map
            (Recommendation.mkPage
               (Recommendation.ShowCard
                  (Recommendation.mkCard (own props "name") None
                     (own props "remaining_prizes") (own props "grand_prizes_remaining"))))
            (array_map (Recommendation.game_row js) gs)
      | Some (JNum x) =>
          option_map
            (Recommendation.mkPage
               (Recommendation.ShowCard
                  (Recommendation.mkCard (own props "name") (Some (toFixed2 js x))
                     (own props "remaining_prizes") (own props "grand_prizes_remaining"))))
            (array_map (Recommendation.game_row js) gs)
      | Some _ => None
      end.
Proof.
  intros H1 H2. rewrite (Recommendation_final_delivered net gs _ H1 H2).
  unfold Recommendation.App, Recommendation.page, Recommendation.card_slot,
    Recommendation.card, field.
  cbn [Recommendation.loading Recommendation.error Recommendation.best Recommendation.games
       truthy bind_opt Field.key].
  destruct (own props "expected_value") as [[|b|x|s|items|ps]|];
    cbn [Recommendation.optional_toFixed2 bind_opt option_map]; try reflexivity;
    destruct (array_map (Recommendation.game_row js) gs); reflexivity.
Qed.

Lemma expected_value_must_be_a_number_witness :
  Recommendation.App example_engine
    (Recommendation.final
       (Recommendation.mkNetwork (json_reply 200 1 1 (JArr [cash_blast]))
          (json_reply 200 1 1 (JObj [("name", JStr "Cash Blast");
                                     ("expected_value", JStr "1.25")]))))
  = Recommendation.DataView None.
Proof.
  apply (expected_value_must_be_a_number example_engine _ (JArr [cash_blast])
           [("name", JStr "Cash Blast"); ("expected_value", JStr "1.25")]); reflexivity.
Defined.

End RecommendationPage.
